(** * SPOT evaluation notebook ([notebooks/run_eval_single.ipynb])

    A shallow embedding of the evaluation pipeline of the notebook:
    record normalizer (groupby / agg), reviewer retry loop, construction of
    the reviewer table, judge stage (prompt building, batched call, record
    assembly, left merge) and the metrics aggregator [compute_all_metrics].

    Conventions.
    - Python values that flow through table cells and parsed model answers
      are values of [pyval]; a Python exception is the [None] of [option].
    - A data frame is a list of rows in row order; a row carries its
      identifier (the [doi/arxiv_id] column) and its other cells by column
      name.
    - Quotients that the notebook computes in floating point are taken as
      exact rationals ([Q]); a quantity that pandas reports as not-a-number
      (mean of no rows, 0/0) is [None]. *)

From Stdlib Require Import List String Ascii Bool ZArith QArith Lia.
From Stdlib Require Import DecimalString DecimalZ Permutation.
Import ListNotations.

Set Implicit Arguments.
Set Warnings "-register-all".

Close Scope Q_scope.
Open Scope string_scope.
Open Scope list_scope.

(* ------------------------------------------------------------------ *)
(** ** Exceptions as [option] *)

Definition bind {A B : Type} (m : option A) (k : A -> option B) : option B :=
  match m with
  | Some a => k a
  | None => None
  end.

Notation "x <- m ;; k" := (bind m (fun x => k))
  (at level 61, m at next level, right associativity).

(** [[f(x) for x in xs]] where [f] may raise. *)
Fixpoint traverse {A B : Type} (f : A -> option B) (xs : list A) : option (list B) :=
  match xs with
  | [] => Some []
  | x :: xs' =>
      y <- f x ;;
      ys <- traverse f xs' ;;
      Some (y :: ys)
  end.

(* ------------------------------------------------------------------ *)
(** ** Python values *)

Module Py.

Inductive pyval : Type :=
| PyNone                                   (* None *)
| PyNaN                                    (* float('nan'), the hole left by a join *)
| PyBool (b : bool)
| PyInt (n : Z)
| PyStr (s : string)
| PyList (xs : list pyval)
| PyDict (kvs : list (string * pyval)).

(** A dict with string keys, in insertion order. *)
Definition dict : Type := list (string * pyval).

Fixpoint lookup (k : string) (d : dict) : option pyval :=
  match d with
  | [] => None
  | (k', v) :: d' => if String.eqb k k' then Some v else lookup k d'
  end.

(** [d.get(k, default)] *)
Definition get (d : dict) (k : string) (default : pyval) : pyval :=
  match lookup k d with
  | Some v => v
  | None => default
  end.

(** [len(x)]: defined on str (one-byte characters), list and dict, a
    TypeError elsewhere. *)
Definition py_len (x : pyval) : option Z :=
  match x with
  | PyStr s => Some (Z.of_nat (String.length s))
  | PyList xs => Some (Z.of_nat (List.length xs))
  | PyDict kvs => Some (Z.of_nat (List.length kvs))
  | _ => None
  end.

(** Iteration ([for m in x], [zip(x, ...)]): a list yields its items, a
    str its characters, a dict its keys; anything else is a TypeError. *)
Definition py_iter (x : pyval) : option (list pyval) :=
  match x with
  | PyList xs => Some xs
  | PyStr s => Some (map (fun c => PyStr (String c EmptyString)) (list_ascii_of_string s))
  | PyDict kvs => Some (map (fun kv => PyStr (fst kv)) kvs)
  | _ => None
  end.

(** [bool(x)] *)
Definition py_bool (x : pyval) : bool :=
  match x with
  | PyNone => false
  | PyNaN => true
  | PyBool b => b
  | PyInt n => negb (Z.eqb n 0)
  | PyStr s => negb (String.eqb s EmptyString)
  | PyList xs => match xs with [] => false | _ => true end
  | PyDict kvs => match kvs with [] => false | _ => true end
  end.

(** [isinstance(x, str)], [isinstance(x, list)] *)
Definition is_str (x : pyval) : bool :=
  match x with PyStr _ => true | _ => false end.


(** pandas' notion of a missing value. *)
Definition is_null (x : pyval) : bool :=
  match x with PyNone | PyNaN => true | _ => false end.

(** [m.get(k, default)] on a value that has to be a dict (AttributeError
    otherwise). *)
Definition py_get (m : pyval) (k : string) (default : pyval) : option pyval :=
  match m with
  | PyDict kvs => Some (get kvs k default)
  | _ => None
  end.

End Py.
Import Py.

(* ------------------------------------------------------------------ *)
(** ** Data frames *)

Module Frame.

(** One row: the identifier column [doi/arxiv_id] and the other cells. *)
Record row : Type := mkRow { doi : string; cells : dict }.

Definition frame : Type := list row.

(** [row[c]] / [df[c]] at one row: a KeyError when the column is absent. *)
Definition col (c : string) (r : row) : option pyval := lookup c (cells r).



End Frame.
Import Frame.

(* ------------------------------------------------------------------ *)
(** ** Metrics aggregator: [compute_all_metrics] *)

Module Metrics.

Local Open Scope Z_scope.

(** Per-paper counts, the entries of [per_paper]. *)
Record counts : Type := mkCounts { k_i : Z; TP_i : Z; FP_i : Z; FN_i : Z }.

Record report : Type := mkReport {
  N : Z;
  precision_micro : Q;
  recall_micro : Q;
  precision_macro : option Q;
  recall_macro : option Q;
  PPR : option Q;
  per_paper : list (string * counts)
}.

Definition Zsum (xs : list Z) : Z := fold_right Z.add 0 xs.

Definition Qsum (xs : list Q) : Q := fold_right Qplus 0%Q xs.

(** [num / den if den > 0 else 0.0] *)
Definition ratio (num den : Z) : Q :=
  if 0 <? den then (inject_Z num / inject_Z den)%Q else 0%Q.

(** The ratio in the words of the metric definitions: [num / den], and 0
    when the denominator is 0. Compared with [ratio] in the theorems. *)
Definition spec_ratio (num den : Z) : Q :=
  if den =? 0 then 0%Q else (inject_Z num / inject_Z den)%Q.

(** [Series.mean()]: not a number on an empty series.  The quotients and
    their sum are exact rationals here; the rounding of the float64 sum,
    which depends on the order of the rows, is not modelled. *)
Definition mean (xs : list Q) : option Q :=
  match xs with
  | [] => None
  | _ => Some (Qsum xs / inject_Z (Z.of_nat (List.length xs)))%Q
  end.

Section WithEval.

(** Python's [eval] on the text of a cell; [None] when it raises. *)
Variable py_eval : string -> option pyval.

(** Step 2, column by column.
    [lambda x: eval(x) if isinstance(x, str) else []] *)
Definition norm_matches (x : pyval) : option pyval :=
  match x with
  | PyStr s => py_eval s
  | _ => Some (PyList [])
  end.

(** [lambda x: x if isinstance(x, list) else []] *)
Definition norm_list (x : pyval) : pyval :=
  match x with
  | PyList _ => x
  | _ => PyList []
  end.

(** The normalized cells of one row: matches, match_descriptions, errors. *)
Definition normalized (r : row) : option (pyval * pyval * pyval) :=
  x_m <- col "matches" r ;;
  m <- norm_matches x_m ;;
  x_md <- col "match_descriptions" r ;;
  x_e <- col "errors" r ;;
  Some (m, norm_list x_md, norm_list x_e).

(** Step 3: k_i, TP_i, FP_i, FN_i of one row. *)
Definition paper_counts (r : row) : option counts :=
  cols <- normalized r ;;
  let '(m, md, es) := cols in
  ann <- col "error_annotation" r ;;
  k <- py_len ann ;;
  lm <- py_len m ;;
  lmd <- py_len md ;;
  le <- py_len es ;;
  let tp := Z.max lm lmd in
  Some (mkCounts k tp (le - tp) (k - tp)).

(** The rows that step 2 and step 3 go through without an exception: the
    four columns are there, [error_annotation] has a length, and
    [matches] is not a string or is a string that evaluates to something
    with a length. *)
Definition sized (x : pyval) : bool :=
  match py_len x with Some _ => true | None => false end.

Definition readable (r : row) : bool :=
  match col "matches" r, col "match_descriptions" r, col "errors" r,
        col "error_annotation" r with
  | Some x_m, Some _, Some _, Some ann =>
      sized ann && match norm_matches x_m with Some m => sized m | None => false end
  | _, _, _, _ => false
  end.

(** [row["TP_i"] / (row["TP_i"] + row["FP_i"]) if ... > 0 else 0.0] *)
Definition per_prec (c : counts) : Q := ratio (TP_i c) (TP_i c + FP_i c).

Definition per_rec (c : counts) : Q := ratio (TP_i c) (TP_i c + FN_i c).

(** [df["TP_i"] == df["k_i"]] *)
Definition perfect (c : counts) : bool := TP_i c =? k_i c.

Definition perfect_count (cs : list counts) : Z :=
  Z.of_nat (List.length (filter perfect cs)).

(** [perfect_mask.sum() / N] *)
Definition ppr_of (cs : list counts) : option Q :=
  match cs with
  | [] => None
  | _ => Some (inject_Z (perfect_count cs) / inject_Z (Z.of_nat (List.length cs)))%Q
  end.

(** Counts that are made of lengths: TP_i, the number of predicted errors
    TP_i + FP_i and the number of annotations TP_i + FN_i are not negative. *)
Definition sound (c : counts) : Prop :=
  0 <= TP_i c /\ 0 <= TP_i c + FP_i c /\ 0 <= TP_i c + FN_i c.

Definition TP_total (cs : list counts) : Z := Zsum (map TP_i cs).
Definition FP_total (cs : list counts) : Z := Zsum (map FP_i cs).
Definition FN_total (cs : list counts) : Z := Zsum (map FN_i cs).

Definition compute_all_metrics (resp_df : frame) : option report :=
  cs <- traverse paper_counts resp_df ;;
  Some {|
    N := Z.of_nat (List.length cs);
    precision_micro := ratio (TP_total cs) (TP_total cs + FP_total cs);
    recall_micro := ratio (TP_total cs) (TP_total cs + FN_total cs);
    precision_macro := mean (map per_prec cs);
    recall_macro := mean (map per_rec cs);
    PPR := ppr_of cs;
    per_paper := combine (map doi resp_df) cs
  |}.

End WithEval.

End Metrics.

(* ------------------------------------------------------------------ *)
(** ** Record normalizer: [groupby('doi/arxiv_id', as_index=False).agg(agg_dict)] *)

Module Normalizer.

Definition list_cols : list string :=
  ["paper_category"; "error_location"; "error_annotation"].

Inductive agg : Type :=
| AggList      (* the builtin [list] *)
| AggFirst.    (* 'first' *)

Definition is_list_col (c : string) : bool := existsb (String.eqb c) list_cols.

(** [{col: (list if col in list_cols else 'first')
      for col in orig_df.columns if col != 'doi/arxiv_id'}] *)
Definition agg_dict (columns : list string) : list (string * agg) :=
  map (fun c => (c, if is_list_col c then AggList else AggFirst))
      (filter (fun c => negb (String.eqb c "doi/arxiv_id")) columns).

(** 'first': the first value of the group that is not missing; a group
    with no such value stays missing ([PyNaN] stands for either missing
    marker). *)
Definition first (vals : list pyval) : pyval :=
  match filter (fun v => negb (is_null v)) vals with
  | v :: _ => v
  | [] => PyNaN
  end.

Definition apply_agg (a : agg) (vals : list pyval) : pyval :=
  match a with
  | AggList => PyList vals
  | AggFirst => first vals
  end.

(** groupby sorts the group keys (sort=True is the default). *)
Fixpoint insert_key (k : string) (ks : list string) : list string :=
  match ks with
  | [] => [k]
  | k' :: ks' => if String.leb k k' then k :: ks else k' :: insert_key k ks'
  end.

Definition sort_keys (ks : list string) : list string :=
  fold_right insert_key [] ks.

Definition group_keys (df : frame) : list string :=
  sort_keys (nodup string_dec (map doi df)).

(** The rows of one group, in source row order. *)
Definition group (k : string) (df : frame) : list row :=
  filter (fun r => String.eqb (doi r) k) df.

(** The values of column [c] over the rows of a group. *)
Definition column_values (c : string) (g : list row) : list pyval :=
  map (fun r => get (cells r) c PyNaN) g.

Definition agg_group (spec : list (string * agg)) (k : string) (g : list row) : row :=
  mkRow k (map (fun ca => (fst ca, apply_agg (snd ca) (column_values (fst ca) g))) spec).

Definition normalize (columns : list string) (orig_df : frame) : frame :=
  map (fun k => agg_group (agg_dict columns) k (group k orig_df)) (group_keys orig_df).

(** What [normalize] makes of a row that is alone in its group: a cell
    of a list-valued column becomes the list of that one cell, any other
    cell is kept ('first' of one value), a missing one staying missing. *)
Definition wrap_cell (c : string) (v : pyval) : pyval :=
  if is_list_col c then PyList [v] else if is_null v then PyNaN else v.

Definition wrap_row (columns : list string) (r : row) : row :=
  mkRow (doi r)
    (map (fun ca => (fst ca, wrap_cell (fst ca) (get (cells r) (fst ca) PyNaN)))
         (agg_dict columns)).

(** Rows ordered by identifier, as the group keys are. *)
Fixpoint insert_row (r : row) (rs : list row) : list row :=
  match rs with
  | [] => [r]
  | r' :: rs' => if String.leb (doi r) (doi r') then r :: rs else r' :: insert_row r rs'
  end.

Definition sort_rows (rs : list row) : list row := fold_right insert_row [] rs.

(** Keys in ascending order, neighbour by neighbour. *)
Fixpoint ascending (ks : list string) : bool :=
  match ks with
  | k :: (k' :: _) as ks' => String.leb k k' && ascending ks'
  | _ => true
  end.

End Normalizer.

(* ------------------------------------------------------------------ *)
(** ** Completion client: the reviewer retry loop *)

Module Client.

Section Reviewer.

Variables World Query Response : Type.

(** One call of [completion(model=..., messages=qry, min_tokens=8)]: it
    returns a response or raises an [Exception] (what [except Exception]
    catches; an interrupt of the process is not a call outcome); either
    way the outside world moves on. *)
Inductive outcome : Type :=
| Returned (res : Response)
| Raised.

Variable completion : Query -> World -> outcome * World.

(** [for attempt in range(1, 6): try: ...; break; except Exception: ...] *)
Fixpoint attempts (rng : list nat) (qry : Query)
    (responses : list (option Response)) (w : World)
    : list (option Response) * World :=
  match rng with
  | [] => (responses, w)
  | attempt :: rng' =>
      match completion qry w with
      | (Returned res, w') => (responses ++ [Some res], w')
      | (Raised, w') =>
          let responses' :=
            if Nat.eqb attempt 5 then responses ++ [None] else responses in
          attempts rng' qry responses' w'
      end
  end.

(** [range(1, 6)] *)
Definition attempt_range : list nat := seq 1 5.

(** [for qry in tqdm(qrys): ...] *)
Fixpoint reviewer_loop (qrys : list Query)
    (responses : list (option Response)) (w : World)
    : list (option Response) * World :=
  match qrys with
  | [] => (responses, w)
  | qry :: rest =>
      let '(responses', w') := attempts attempt_range qry responses w in
      reviewer_loop rest responses' w'
  end.

(** [responses = []] followed by the loop. *)
Definition run_reviewer (qrys : list Query) (w : World)
    : list (option Response) * World :=
  reviewer_loop qrys [] w.

End Reviewer.

Arguments Raised {Response}.

(** A world that also keeps the outcomes of the calls made so far, in
    call order. *)
Definition logging {World Query Response : Type}
    (completion : Query -> World -> outcome Response * World)
    (qry : Query) (wl : World * list (outcome Response))
    : outcome Response * (World * list (outcome Response)) :=
  let '(o, w') := completion qry (fst wl) in (o, (w', snd wl ++ [o])).

(** What the attempts for one paper add to the trace of calls, and the
    slot they fill: [budget] failures and an absent response, or fewer
    failures followed by the response that was returned. *)
Definition attempt_result {Response : Type} (budget : nat)
    (new : list (outcome Response)) (slot : option Response) : Prop :=
  (slot = None /\ new = repeat Raised budget) \/
  (exists res j, slot = Some res /\ j < budget /\
                 new = repeat Raised j ++ [Returned res]).

End Client.

(* ------------------------------------------------------------------ *)
(** ** Response parser and the reviewer table *)

Module Parser.

(** The expected structured form of a model answer. *)
Record structured : Type := mkStructured {
  s_has_error : bool;
  s_errors : list pyval;
  s_matches : list pyval
}.

Section Extract.

Variable Response : Type.

(** Reading the text of a completion as the expected structured form;
    [None] when it cannot be read that way. *)
Variable interpret : Response -> option structured.

(** Modelled from the spec: [extract_response_dict] is imported from the
    repository's [src] package, whose code is not among the sources; only
    its call sites are. The spec's contract: an absent response, or a text
    that cannot be interpreted as the expected structured form, gives
    [parsed = False]; a successful parse gives the model's own [has_error]
    and its list fields, absent or null list fields being empty lists. *)
Definition extract_response_dict (raw : option Response) : dict :=
  match raw with
  | None => [("parsed", PyBool false)]
  | Some res =>
      match interpret res with
      | None => [("parsed", PyBool false)]
      | Some s =>
          [("parsed", PyBool true);
           ("has_error", PyBool (s_has_error s));
           ("errors", PyList (s_errors s));
           ("matches", PyList (s_matches s))]
      end
  end.

(** The response is absent, or its text is not of the expected form. *)
Definition unusable (raw : option Response) : Prop :=
  raw = None \/ exists res, raw = Some res /\ interpret res = None.

End Extract.

(** One row of [resp_df], from the three comprehensions over
    [parsed_results]. *)
Definition reviewer_row (paper : string) (r : dict) : row :=
  mkRow paper
    [("parsed", get r "parsed" (PyBool false));
     ("is_error", PyBool (py_bool (get r "has_error" (PyBool true))));
     ("errors", get r "errors" (PyList []))].

(** [pd.DataFrame({...})]: the columns must have one length (ValueError
    otherwise). *)
Definition reviewer_table (papers : list string) (parsed_results : list dict)
    : option frame :=
  if Nat.eqb (List.length papers) (List.length parsed_results)
  then Some (map (fun pr => reviewer_row (fst pr) (snd pr)) (combine papers parsed_results))
  else None.

(** [left.merge(right, on=['doi/arxiv_id'])]: inner join, in the order of
    the left keys; the right cells follow the left ones.  The two tables
    share no column but the key, as in the pipeline; pandas would rename a
    shared one ([_x], [_y]). *)
Definition merge_inner (left right : frame) : frame :=
  flat_map
    (fun l => map (fun r => mkRow (doi l) (cells l ++ cells r))
                  (filter (fun r => String.eqb (doi r) (doi l)) right))
    left.

End Parser.

(* ------------------------------------------------------------------ *)
(** ** Judge stage *)

Module Judge.

Section Stage.

Variable Response : Type.

(** The prompt text imported from the [prompts] module. *)
Variable llm_judge_template : string.

(** [json.dumps(payload, ensure_ascii=False, indent=2)] *)
Variable json_dumps : pyval -> string.

(** [batch_completion(model=judge_name, messages=qrys)]: the responses of
    one batched call; a slot without a usable response is [None]. *)
Variable batch_completion : list pyval -> list (option Response).

Variable extract_response_dict : option Response -> dict.

(** [resp_df["parsed"] & resp_df["is_error"]] at one row; both columns
    hold booleans, as the reviewer stage builds them, and any other cell
    is taken as an error here. *)
Definition is_error_case (r : row) : option bool :=
  p <- col "parsed" r ;;
  e <- col "is_error" r ;;
  match p, e with
  | PyBool a, PyBool b => Some (a && b)
  | _, _ => None
  end.

(** [resp_df.loc[mask, :]] *)
Definition select (df : frame) (mask : list bool) : frame :=
  map fst (filter snd (combine df mask)).

Definition message (role content : string) : pyval :=
  PyDict [("role", PyStr role); ("content", PyStr content)].

(** The payload of one judge prompt. *)
Definition judge_payload (r : row) : option pyval :=
  x_loc <- col "error_location" r ;;
  x_ann <- col "error_annotation" r ;;
  locs <- py_iter x_loc ;;
  descs <- py_iter x_ann ;;
  let annotations :=
    map (fun ld => PyDict [("location", fst ld); ("description", snd ld)])
        (combine locs descs) in
  predictions <- col "errors" r ;;
  Some (PyDict [("annotations", PyList annotations); ("predictions", predictions)]).

Definition judge_query (r : row) : option pyval :=
  payload <- judge_payload r ;;
  Some (PyList [message "system" llm_judge_template;
                message "user" (json_dumps payload)]).

(** One entry of [records]. *)
Definition judge_record (id : string) (res : dict) : option row :=
  let matches := get res "matches" (PyList []) in
  ms <- py_iter matches ;;
  descriptions <- traverse (fun m => py_get m "description" (PyStr "")) ms ;;
  Some (mkRow id [("matches", matches); ("match_descriptions", PyList descriptions)]).

(** [for doi, res in zip(resp_df["doi/arxiv_id"], parsed_results): ...] *)
Definition judge_records (resp_df : frame) (parsed_results : list dict)
    : option (list row) :=
  traverse (fun dr => judge_record (fst dr) (snd dr))
           (combine (map doi resp_df) parsed_results).

Definition null_match_cells : dict :=
  [("matches", PyNaN); ("match_descriptions", PyNaN)].

(** [resp_df.merge(judge_df, on="doi/arxiv_id", how="left")] with
    [judge_df = pd.DataFrame.from_records(records)]. A frame made from no
    record has no column at all, and the merge then fails on the missing
    key column (KeyError).  [resp_df] has no [matches] or
    [match_descriptions] column of its own, as in the pipeline. *)
Definition merge_left (resp_df : frame) (records : list row) : option frame :=
  match records with
  | [] => None
  | _ =>
      Some (flat_map
              (fun l =>
                 match filter (fun r => String.eqb (doi r) (doi l)) records with
                 | [] => [mkRow (doi l) (cells l ++ null_match_cells)]
                 | rs => map (fun r => mkRow (doi l) (cells l ++ cells r)) rs
                 end)
              resp_df)
  end.

(** The judge prompts of the error cases, in row order. *)
Definition judge_queries (resp_df : frame) : option (list pyval) :=
  mask <- traverse is_error_case resp_df ;;
  traverse judge_query (select resp_df mask).

(** From [error_cases = ...] to the merged per-paper table. *)
Definition judge_stage (resp_df : frame) : option frame :=
  qrys <- judge_queries resp_df ;;
  let responses := batch_completion qrys in
  let parsed_results := map extract_response_dict responses in
  records <- judge_records resp_df parsed_results ;;
  merge_left resp_df records.

End Stage.

End Judge.

(* ------------------------------------------------------------------ *)
(** ** The whole run *)

Module Pipeline.

Section Run.

Variables World Response : Type.

Variable llm_reviewer_template : string.
Variable llm_judge_template : string.

(** [clean_records], imported from the [src] package: the paper content
    as the text of the user message. *)
Variable clean_records : pyval -> string.

Variable json_dumps : pyval -> string.
Variable completion : pyval -> World -> Client.outcome Response * World.
Variable batch_completion : list pyval -> list (option Response).
Variable interpret : Response -> option Parser.structured.
Variable py_eval : string -> option pyval.

Definition reviewer_query (r : row) : option pyval :=
  content <- col "paper_content" r ;;
  Some (PyList [Judge.message "system" llm_reviewer_template;
                Judge.message "user" (clean_records content)]).

(** From the prompts to [resp_df] merged with the annotations. *)
Definition reviewer_stage (flat_orig_df : frame) (w : World) : option frame :=
  qrys <- traverse reviewer_query flat_orig_df ;;
  let papers := map doi flat_orig_df in
  let responses := fst (Client.run_reviewer completion qrys w) in
  let parsed_results := map (Parser.extract_response_dict interpret) responses in
  resp_df <- Parser.reviewer_table papers parsed_results ;;
  Some (Parser.merge_inner resp_df flat_orig_df).

Definition run_eval (flat_orig_df : frame) (w : World)
    : option (frame * Metrics.report) :=
  resp_df <- reviewer_stage flat_orig_df w ;;
  merged <- Judge.judge_stage llm_judge_template json_dumps batch_completion
              (Parser.extract_response_dict interpret) resp_df ;;
  metrics <- Metrics.compute_all_metrics py_eval merged ;;
  Some (merged, metrics).

End Run.

End Pipeline.

(* ------------------------------------------------------------------ *)
(** ** Export: the names of the two result files *)

Module Files.

(** [s.replace(old, new)] where [old] and [new] are one character each. *)
Fixpoint replace_char (old new : ascii) (s : string) : string :=
  match s with
  | EmptyString => EmptyString
  | String c s' =>
      String (if Ascii.eqb c old then new else c) (replace_char old new s')
  end.

(** [model_name.replace("/", "_").replace(".", "_")] *)
Definition safe_model_name (model_name : string) : string :=
  replace_char "." "_" (replace_char "/" "_" model_name).

(** [f"{idx}"] for an int. *)
Definition str_of_int (idx : Z) : string := NilZero.string_of_int (Z.to_int idx).

(** [f"results_scaling/{safe_model_name}_resp_df_{idx}.csv"] *)
Definition resp_df_path (model_name : string) (idx : Z) : string :=
  ("results_scaling/" ++ safe_model_name model_name ++ "_resp_df_"
     ++ str_of_int idx ++ ".csv")%string.

(** [f"results_scaling/{safe_model_name}_metrics_{idx}.csv"] *)
Definition metrics_path (model_name : string) (idx : Z) : string :=
  ("results_scaling/" ++ safe_model_name model_name ++ "_metrics_"
     ++ str_of_int idx ++ ".csv")%string.

(** The number of occurrences of a character in a text. *)
Fixpoint occurrences (c : ascii) (s : string) : nat :=
  match s with
  | EmptyString => 0
  | String c' s' => (if Ascii.eqb c' c then 1 else 0) + occurrences c s'
  end.

End Files.

(* ------------------------------------------------------------------ *)
(** ** Rows as the stages leave them *)

Module Stages.

(** The row of a paper after [resp_df.merge(flat_orig_df, ...)]: the
    three cells made from its parsed result [d], then its annotation
    cells. *)
Definition reviewed_row (fr : row) (d : dict) : row :=
  mkRow (doi fr) (cells (Parser.reviewer_row (doi fr) d) ++ cells fr).

(** The row of a paper after the left merge with the judge records: with
    the cells of a record, or with null match fields. *)
Definition judged_row (r record : row) : row :=
  mkRow (doi r) (cells r ++ cells record).

Definition unjudged_row (r : row) : row :=
  mkRow (doi r) (cells r ++ Judge.null_match_cells).

(** The annotation of one raw dataset row, as a judge prompt lists it. *)
Definition annotation_of (raw : row) : pyval :=
  PyDict [("location", get (cells raw) "error_location" PyNaN);
          ("description", get (cells raw) "error_annotation" PyNaN)].




End Stages.

(* ------------------------------------------------------------------ *)
(** ** Concrete tables and collaborators *)

Module Examples.

Import Normalizer Parser.

Definition strs (l : list string) : pyval := PyList (map PyStr l).

Definition match_obj (d : string) : pyval := PyDict [("description", PyStr d)].

(** No cell of the tables below is a string in a column that is eval'ed. *)
Definition no_eval : string -> option pyval := fun _ => None.

(** The two-paper scenario: P1 has two annotated errors, three predicted
    errors and two confirmed matches; P2 has one annotated error and no
    predicted error, hence no judge record. *)
Definition scenario_df : frame :=
  [mkRow "P1"
     [("errors", strs ["e1"; "e2"; "e3"]);
      ("error_annotation", strs ["a1"; "a2"]);
      ("matches", PyList [match_obj "m1"; match_obj "m2"]);
      ("match_descriptions", strs ["m1"; "m2"])];
   mkRow "P2"
     [("errors", PyList []);
      ("error_annotation", strs ["a1"]);
      ("matches", PyNaN);
      ("match_descriptions", PyNaN)]].

(** One paper, one annotated error, one predicted error, and a judge that
    reports two matches. *)
Definition overcount_df : frame :=
  [mkRow "P1"
     [("errors", strs ["e1"]);
      ("error_annotation", strs ["a1"]);
      ("matches", PyList [match_obj "m1"; match_obj "m2"]);
      ("match_descriptions", strs ["m1"; "m2"])]].

(** A row whose judge record holds two match objects and no description. *)
Definition undescribed_row : row :=
  mkRow "P1"
    [("errors", strs ["e1"; "e2"]);
     ("error_annotation", strs ["a1"; "a2"]);
     ("matches", PyList [PyDict []; PyDict []]);
     ("match_descriptions", PyNaN)].

(** A raw dataset: paper B is annotated twice, paper A once. *)
Definition dataset_columns : list string :=
  ["doi/arxiv_id"; "paper_content"; "paper_category"; "error_location";
   "error_annotation"].

Definition raw_df : frame :=
  [mkRow "arXiv:2401.06455"
     [("paper_content", PyStr "text B"); ("paper_category", PyStr "math");
      ("error_location", PyStr "Lemma 2"); ("error_annotation", PyStr "sign error")];
   mkRow "10.1234/abc123"
     [("paper_content", PyStr "text A"); ("paper_category", PyStr "medicine");
      ("error_location", PyStr "Fig. 1"); ("error_annotation", PyStr "duplicated panel")];
   mkRow "arXiv:2401.06455"
     [("paper_content", PyStr "text B"); ("paper_category", PyStr "math");
      ("error_location", PyStr "Theorem 5");
      ("error_annotation", PyStr "missing hypothesis")]].

Definition flat_df : frame :=
  [mkRow "10.1234/abc123"
     [("paper_content", PyStr "text A");
      ("paper_category", strs ["medicine"]);
      ("error_location", strs ["Fig. 1"]);
      ("error_annotation", strs ["duplicated panel"])];
   mkRow "arXiv:2401.06455"
     [("paper_content", PyStr "text B");
      ("paper_category", strs ["math"; "math"]);
      ("error_location", strs ["Lemma 2"; "Theorem 5"]);
      ("error_annotation", strs ["sign error"; "missing hypothesis"])]].

Definition quote : string := String (ascii_of_nat 34) EmptyString.

(** A compact rendering of a payload, standing for [json.dumps] when the
    pipeline is run on the tables above. *)
Fixpoint render (v : pyval) : string :=
  match v with
  | PyNone => "null"
  | PyNaN => "NaN"
  | PyBool true => "true"
  | PyBool false => "false"
  | PyInt _ => "int"
  | PyStr s => quote ++ s ++ quote
  | PyList xs => "[" ++ String.concat ", " (map render xs) ++ "]"
  | PyDict kvs =>
      "{" ++ String.concat ", "
               (map (fun kv => let '(k, x) := kv in
                               quote ++ k ++ quote ++ ": " ++ render x) kvs)
          ++ "}"
  end%string.

Definition text_of (content : pyval) : string :=
  match content with PyStr s => s | _ => "" end.

(** The content of the user message of a query. *)
Definition user_content (qry : pyval) : string :=
  match qry with
  | PyList [_; PyDict kvs] => text_of (get kvs "content" PyNone)
  | _ => ""
  end.

(** A reviewer model that cannot be reached for paper A and finds one
    error in any other paper; the world counts the calls. *)
Definition demo_completion (qry : pyval) (w : nat)
    : Client.outcome structured * nat :=
  if String.eqb (user_content qry) "text A"
  then (Client.Raised, S w)
  else (Client.Returned (mkStructured true [PyStr "Lemma 2 has a sign error"] []), S w).

(** A judge model that reports one match per prompt and gives the prompt
    it was asked as the description of the match. *)
Definition demo_batch (qrys : list pyval) : list (option structured) :=
  map (fun q => Some (mkStructured true []
                        [PyDict [("description", PyStr (user_content q))]])) qrys.

Definition demo_interpret (res : structured) : option structured := Some res.

(** [resp_df] of the two papers, as the reviewer stage leaves it: paper A
    without a response, paper B with one predicted error. *)
Definition demo_resp_df : frame :=
  [mkRow "10.1234/abc123"
     [("parsed", PyBool false); ("is_error", PyBool true); ("errors", PyList []);
      ("paper_content", PyStr "text A");
      ("paper_category", strs ["medicine"]);
      ("error_location", strs ["Fig. 1"]);
      ("error_annotation", strs ["duplicated panel"])];
   mkRow "arXiv:2401.06455"
     [("parsed", PyBool true); ("is_error", PyBool true);
      ("errors", strs ["Lemma 2 has a sign error"]);
      ("paper_content", PyStr "text B");
      ("paper_category", strs ["math"; "math"]);
      ("error_location", strs ["Lemma 2"; "Theorem 5"]);
      ("error_annotation", strs ["sign error"; "missing hypothesis"])]].

Definition demo_judge_stage : frame -> option frame :=
  Judge.judge_stage "JUDGE" render demo_batch
    (extract_response_dict demo_interpret).

Definition demo_reviewer_stage : frame -> nat -> option frame :=
  Pipeline.reviewer_stage "REVIEW" text_of demo_completion demo_interpret.

Definition demo_run_eval : frame -> nat -> option (frame * Metrics.report) :=
  Pipeline.run_eval "REVIEW" "JUDGE" text_of render demo_completion demo_batch
    demo_interpret no_eval.

(** A reviewer model that cannot be reached at all. *)
Definition down_completion (qry : pyval) (w : nat)
    : Client.outcome structured * nat :=
  (Client.Raised, S w).

End Examples.

(* ------------------------------------------------------------------ *)
(** ** Further tables and collaborators *)

Module MoreExamples.

Import Parser Examples.

(** A reviewer model that answers every call, finding no error. *)
Definition up_completion (qry : pyval) (w : nat)
    : Client.outcome structured * nat :=
  (Client.Returned (mkStructured false [] []), S w).

(** The two-paper table with the error case (paper B) in the first row. *)
Definition prefix_cases : frame :=
  [mkRow "arXiv:2401.06455"
     [("parsed", PyBool true); ("is_error", PyBool true);
      ("errors", strs ["Lemma 2 has a sign error"]);
      ("paper_content", PyStr "text B");
      ("paper_category", strs ["math"; "math"]);
      ("error_location", strs ["Lemma 2"; "Theorem 5"]);
      ("error_annotation", strs ["sign error"; "missing hypothesis"])]].

Definition prefix_others : frame :=
  [mkRow "10.1234/abc123"
     [("parsed", PyBool false); ("is_error", PyBool true); ("errors", PyList []);
      ("paper_content", PyStr "text A");
      ("paper_category", strs ["medicine"]);
      ("error_location", strs ["Fig. 1"]);
      ("error_annotation", strs ["duplicated panel"])]].

(** A table in which no reviewer result is usable. *)
Definition unparsed_df : frame :=
  [mkRow "10.1234/abc123"
     [("parsed", PyBool false); ("is_error", PyBool true); ("errors", PyList []);
      ("error_location", strs ["Fig. 1"]);
      ("error_annotation", strs ["duplicated panel"])];
   mkRow "arXiv:2401.06455"
     [("parsed", PyBool false); ("is_error", PyBool true); ("errors", PyList []);
      ("error_location", strs ["Lemma 2"; "Theorem 5"]);
      ("error_annotation", strs ["sign error"; "missing hypothesis"])]].

(** A table read back from a file, whose second [matches] cell is a text
    that does not evaluate. *)
Definition reread_df : frame :=
  [mkRow "P1"
     [("errors", strs ["e1"]); ("error_annotation", strs ["a1"]);
      ("matches", PyNaN); ("match_descriptions", PyNaN)];
   mkRow "P2"
     [("errors", strs ["e1"]); ("error_annotation", strs ["a1"]);
      ("matches", PyStr "[{'description': "); ("match_descriptions", PyNaN)]].




(** The merged table of a run in which the judge found no match. *)
Definition unmatched_df : frame :=
  [mkRow "P1"
     [("errors", strs ["e1"; "e2"]); ("error_annotation", strs ["a1"]);
      ("matches", PyList []); ("match_descriptions", PyList [])];
   mkRow "P2"
     [("errors", PyList []); ("error_annotation", PyList []);
      ("matches", PyNaN); ("match_descriptions", PyNaN)]].

End MoreExamples.

(* ================================================================== *)
(** * Properties *)

(* ------------------------------------------------------------------ *)
(** ** Exceptions as [option] *)

Lemma bind_Some {A B : Type} (m : option A) (k : A -> option B) (b : B) :
  bind m k = Some b -> exists a, m = Some a /\ k a = Some b.
Proof. destruct m as [a|]; simpl; [eauto | discriminate]. Qed.

Ltac inv_bind H :=
  repeat match type of H with
  | bind _ _ = Some _ =>
      let a := fresh "a" in
      let E := fresh "E" in
      apply bind_Some in H as (a & E & H)
  end.

Section TraverseFacts.

Context {A B : Type}.
Variable f : A -> option B.

Lemma traverse_Forall2 (xs : list A) :
  forall ys, traverse f xs = Some ys -> Forall2 (fun x y => f x = Some y) xs ys.
Proof.
  induction xs as [|x xs IH]; simpl; intros ys H.
  - inversion H; constructor.
  - apply bind_Some in H as (y & Hy & H).
    apply bind_Some in H as (ys' & Hys & H).
    inversion H; subst. constructor; auto.
Qed.

Lemma traverse_length (xs : list A) (ys : list B) :
  traverse f xs = Some ys -> List.length ys = List.length xs.
Proof.
  intros H. apply traverse_Forall2 in H.
  induction H; simpl; congruence.
Qed.

End TraverseFacts.

(* ------------------------------------------------------------------ *)
(** ** Lists and sums *)

Section ListFacts.

Context {A B C : Type}.

Lemma map_snd_combine (xs : list A) (ys : list B) :
  List.length xs = List.length ys -> map snd (combine xs ys) = ys.
Proof.
  revert ys; induction xs; destruct ys; simpl; intros; try congruence; try discriminate.
  f_equal; auto.
Qed.

Lemma map_combine_snd (g : B -> C) (xs : list A) (ys : list B) :
  List.length xs = List.length ys ->
  map (fun xy => g (snd xy)) (combine xs ys) = map g ys.
Proof.
  intros H. rewrite <- (map_map snd g). now rewrite map_snd_combine.
Qed.

Lemma filter_combine_snd (p : B -> bool) (xs : list A) (ys : list B) :
  List.length xs = List.length ys ->
  List.length (filter (fun xy => p (snd xy)) (combine xs ys)) = List.length (filter p ys).
Proof.
  revert ys; induction xs; destruct ys as [|b ys]; simpl; intros H; try discriminate; auto.
  destruct (p b); simpl; auto.
Qed.

End ListFacts.

(* ------------------------------------------------------------------ *)
(** ** Cells *)



Lemma py_len_nonneg (x : pyval) (n : Z) : py_len x = Some n -> (0 <= n)%Z.
Proof. destruct x; simpl; intros H; inversion H; lia. Qed.

(* ------------------------------------------------------------------ *)
(** ** Metrics aggregator *)

Section MetricsFacts.

Import Metrics.
Local Open Scope Z_scope.

Lemma ratio_pos (n d : Z) : 0 < d -> ratio n d = (inject_Z n / inject_Z d)%Q.
Proof. unfold ratio. intros H. apply Z.ltb_lt in H. now rewrite H. Qed.

Lemma ratio_nonpos (n d : Z) : d <= 0 -> ratio n d = 0%Q.
Proof. unfold ratio. intros H. destruct (Z.ltb_spec 0 d); [lia | reflexivity]. Qed.

Lemma Qdiv_Z_nonneg (n d : Z) : 0 <= n -> 0 < d -> (0 <= inject_Z n / inject_Z d)%Q.
Proof.
  intros Hn Hd. destruct d as [|p|p]; try lia.
  unfold Qle, Qdiv, Qmult, Qinv, inject_Z; simpl. lia.
Qed.

Lemma Qdiv_Z_le_1 (n d : Z) : 0 < d -> ((inject_Z n / inject_Z d <= 1)%Q <-> n <= d).
Proof.
  intros Hd. destruct d as [|p|p]; try lia.
  unfold Qle, Qdiv, Qmult, Qinv, inject_Z; simpl. lia.
Qed.

Lemma ratio_nonneg (n d : Z) : 0 <= n -> (0 <= ratio n d)%Q.
Proof.
  intros Hn. unfold ratio. destruct (Z.ltb_spec 0 d).
  - now apply Qdiv_Z_nonneg.
  - apply Qle_refl.
Qed.

Lemma ratio_le_1 (n d : Z) : (ratio n d <= 1)%Q <-> (n <= d \/ d <= 0).
Proof.
  unfold ratio. destruct (Z.ltb_spec 0 d).
  - rewrite Qdiv_Z_le_1 by assumption. lia.
  - split; intros _; [lia | discriminate].
Qed.

(** On a denominator that is not negative, the test [> 0] of the code
    and the test [= 0] of the metric definitions pick the same branch. *)
Lemma ratio_spec_ratio (n d : Z) : 0 <= d -> ratio n d = spec_ratio n d.
Proof.
  intros Hd. unfold ratio, spec_ratio.
  destruct (Z.ltb_spec 0 d), (Z.eqb_spec d 0); auto; lia.
Qed.

Lemma Zsum_add (T : Type) (f g : T -> Z) (xs : list T) :
  Zsum (map (fun x => f x + g x) xs) = Zsum (map f xs) + Zsum (map g xs).
Proof. induction xs; simpl; lia. Qed.

Variable py_eval : string -> option pyval.

Lemma paper_counts_inv (r : row) (c : counts) :
  paper_counts py_eval r = Some c ->
  exists x_m m x_md x_e ann lm lmd le,
    col "matches" r = Some x_m /\ norm_matches py_eval x_m = Some m /\
    col "match_descriptions" r = Some x_md /\ col "errors" r = Some x_e /\
    col "error_annotation" r = Some ann /\
    py_len m = Some lm /\ py_len (norm_list x_md) = Some lmd /\
    py_len (norm_list x_e) = Some le /\ py_len ann = Some (k_i c) /\
    TP_i c = Z.max lm lmd /\ FP_i c = le - TP_i c /\ FN_i c = k_i c - TP_i c.
Proof.
  unfold paper_counts, normalized. intros H.
  inv_bind H. inv_bind E. inversion E; subst; clear E.
  inv_bind H. inversion H; subst; clear H. simpl.
  do 8 eexists. repeat split; eauto.
Qed.

Lemma paper_counts_sound (r : row) (c : counts) :
  paper_counts py_eval r = Some c -> sound c.
Proof.
  intros H. apply paper_counts_inv in H
    as (x_m & m & x_md & x_e & ann & lm & lmd & le
        & _ & _ & _ & _ & _ & Hm & Hmd & He & Hk & Htp & Hfp & Hfn).
  apply py_len_nonneg in Hm, Hmd, He, Hk. unfold sound. lia.
Qed.

Lemma compute_inv (df : frame) (rep : report) :
  compute_all_metrics py_eval df = Some rep ->
  exists cs, traverse (paper_counts py_eval) df = Some cs /\
    rep = {|
      N := Z.of_nat (List.length cs);
      precision_micro := ratio (TP_total cs) (TP_total cs + FP_total cs);
      recall_micro := ratio (TP_total cs) (TP_total cs + FN_total cs);
      precision_macro := mean (map per_prec cs);
      recall_macro := mean (map per_rec cs);
      PPR := ppr_of cs;
      per_paper := combine (map doi df) cs |} /\
    map snd (per_paper rep) = cs /\ List.length cs = List.length df /\
    Forall sound cs.
Proof.
  unfold compute_all_metrics. intros H. apply bind_Some in H as (cs & Hcs & H).
  inversion H; subst; clear H. exists cs. simpl.
  pose proof (traverse_length _ _ Hcs) as Hlen.
  repeat split; auto.
  - apply map_snd_combine. rewrite length_map. auto.
  - apply traverse_Forall2 in Hcs. clear Hlen.
    induction Hcs; constructor; eauto using paper_counts_sound.
Qed.

Lemma totals_sound (cs : list counts) :
  Forall sound cs ->
  0 <= TP_total cs /\ 0 <= TP_total cs + FP_total cs /\ 0 <= TP_total cs + FN_total cs.
Proof.
  unfold TP_total, FP_total, FN_total.
  induction 1 as [|c cs (H1 & H2 & H3) _ IH]; simpl; lia.
Qed.

Lemma norm_list_sized (x : pyval) :
  exists n, py_len (norm_list x) = Some n /\ 0 <= n.
Proof. destruct x; simpl; eexists; split; try reflexivity; lia. Qed.

(** [readable] is exactly the condition under which a row is counted. *)
Lemma paper_counts_readable (r : row) :
  readable py_eval r = true <-> exists c, paper_counts py_eval r = Some c.
Proof.
  unfold readable, paper_counts, normalized, sized. split.
  - destruct (col "matches" r) as [x_m|]; [|discriminate].
    destruct (col "match_descriptions" r) as [x_md|]; [|discriminate].
    destruct (col "errors" r) as [x_e|]; [|discriminate].
    destruct (col "error_annotation" r) as [ann|]; [|discriminate].
    destruct (py_len ann) as [k|] eqn:Ek; [|discriminate].
    destruct (norm_matches py_eval x_m) as [m|] eqn:Em; [|discriminate].
    destruct (py_len m) as [lm|] eqn:El; [|discriminate].
    intros _. simpl. rewrite Em. simpl. rewrite Ek. simpl. rewrite El. simpl.
    destruct (norm_list_sized x_md) as (lmd & -> & _).
    destruct (norm_list_sized x_e) as (le & -> & _).
    simpl. eauto.
  - intros (c & H).
    destruct (col "matches" r) as [x_m|]; [|discriminate].
    simpl in H. destruct (norm_matches py_eval x_m) as [m|]; [|discriminate].
    simpl in H. destruct (col "match_descriptions" r) as [x_md|]; [|discriminate].
    simpl in H. destruct (col "errors" r) as [x_e|]; [|discriminate].
    simpl in H. destruct (col "error_annotation" r) as [ann|]; [|discriminate].
    simpl in H. destruct (py_len ann) as [k|]; [|discriminate].
    simpl in H. destruct (py_len m) as [lm|]; [|discriminate].
    reflexivity.
Qed.

(** The aggregator returns a report on exactly the tables whose rows are
    all readable. *)
Lemma compute_all_metrics_returns (df : frame) :
  forallb (readable py_eval) df = true <->
  exists rep, compute_all_metrics py_eval df = Some rep.
Proof.
  unfold compute_all_metrics. split.
  - intros H.
    assert (Hcs : exists cs, traverse (paper_counts py_eval) df = Some cs).
    { induction df as [|r df IH]; simpl in *; [eauto|].
      apply andb_true_iff in H as [Hr Hdf].
      apply paper_counts_readable in Hr as [c Hc].
      destruct (IH Hdf) as [cs Hcs]. rewrite Hc, Hcs. simpl. eauto. }
    destruct Hcs as [cs ->]. simpl. eauto.
  - intros (rep & H). apply bind_Some in H as (cs & Hcs & _).
    apply traverse_Forall2 in Hcs. induction Hcs as [|r c df cs Hc _ IH]; simpl; auto.
    apply andb_true_iff. split; auto.
    apply paper_counts_readable. eauto.
Qed.

(** A row with null match fields and no predicted error is counted with
    TP = 0, FP = 0 and FN = k. *)
Lemma null_match_row_counts (r : row) (ann : pyval) (k : Z) :
  col "matches" r = Some PyNaN ->
  col "match_descriptions" r = Some PyNaN ->
  col "errors" r = Some (PyList []) ->
  col "error_annotation" r = Some ann -> py_len ann = Some k ->
  paper_counts py_eval r = Some (mkCounts k 0 0 k).
Proof.
  intros Hm Hmd He Hann Hk. unfold paper_counts, normalized.
  rewrite Hm; simpl. rewrite Hmd; simpl. rewrite He; simpl.
  rewrite Hann; simpl. rewrite Hk; simpl. now rewrite Z.sub_0_r.
Qed.




End MetricsFacts.

Section MetricsClaims.

Import Metrics Examples MoreExamples Stages.
Local Open Scope Z_scope.

(** The two-paper scenario of the metric definitions: TP_1 = 2, FP_1 = 1,
    FN_1 = 0 and TP_2 = 0, FP_2 = 0, FN_2 = 1; micro precision and micro
    recall are 2/3 and PPR is 1/2. *)
Lemma scenario_run :
  exists rep ppr,
    compute_all_metrics no_eval scenario_df = Some rep /\
    per_paper rep = [("P1", mkCounts 2 2 1 0); ("P2", mkCounts 1 0 0 1)] /\
    (precision_micro rep == 2 # 3)%Q /\ (recall_micro rep == 2 # 3)%Q /\
    PPR rep = Some ppr /\ (ppr == 1 # 2)%Q.
Proof. do 2 eexists. repeat split; reflexivity. Qed.




(** Where the judge stage stored a list of match objects together with
    one description per object, TP_i is the number of those objects. *)
Lemma TP_counts_judge_matches (py_eval : string -> option pyval)
    (r : row) (c : counts) (ms ds : list pyval) :
  col "matches" r = Some (PyList ms) ->
  col "match_descriptions" r = Some (PyList ds) ->
  List.length ds = List.length ms ->
  paper_counts py_eval r = Some c ->
  TP_i c = Z.max (Z.of_nat (List.length ms)) (Z.of_nat (List.length ds)).
Proof.
  intros Hm Hd Hlen Hc. apply paper_counts_inv in Hc
    as (x_m & m & x_md & x_e & ann & lm & lmd & le
        & H1 & H2 & H3 & H4 & H5 & H6 & H7 & H8 & H9 & Htp & Hfp & Hfn).
  rewrite Hm in H1. rewrite Hd in H3. inversion H1; inversion H3; subst.
  simpl in H2, H7. inversion H2; subst. simpl in H6.
  inversion H6; inversion H7; subst. rewrite Htp, Hlen. simpl. lia.
Qed.

(** C3, as stated, fails: with one predicted error, one annotation and
    two reported matches, micro precision and micro recall are both 2. *)
Lemma C3_counterexample :
  exists rep, compute_all_metrics no_eval overcount_df = Some rep /\
    (precision_micro rep == 2)%Q /\ (recall_micro rep == 2)%Q /\
    ~ (precision_micro rep <= 1)%Q /\ ~ (recall_micro rep <= 1)%Q.
Proof.
  eexists. split; [reflexivity|].
  split; [reflexivity|]. split; [reflexivity|].
  split; intros H; vm_compute in H; apply H; reflexivity.
Qed.

(** C3, amended: micro precision is sum TP_i / sum (TP_i + FP_i) and micro
    recall is sum TP_i / sum (TP_i + FN_i), each 0 when its denominator is
    0; both are at least 0; precision is at most 1 exactly when the sum of
    the FP_i is not negative or the denominator is 0, and recall is at
    most 1 exactly when the sum of the FN_i is not negative or the
    denominator is 0. *)
Theorem C3_micro_amended (py_eval : string -> option pyval) (resp_df : frame) :
  forallb (readable py_eval) resp_df = true ->
  exists rep,
    compute_all_metrics py_eval resp_df = Some rep /\
    let cs := map snd (per_paper rep) in
    let tp := Zsum (map TP_i cs) in
    let dp := Zsum (map (fun c => TP_i c + FP_i c) cs) in
    let dr := Zsum (map (fun c => TP_i c + FN_i c) cs) in
    (dp <> 0 -> precision_micro rep = (inject_Z tp / inject_Z dp)%Q) /\
    (dp = 0 -> precision_micro rep = 0%Q) /\
    (dr <> 0 -> recall_micro rep = (inject_Z tp / inject_Z dr)%Q) /\
    (dr = 0 -> recall_micro rep = 0%Q) /\
    (0 <= precision_micro rep)%Q /\ (0 <= recall_micro rep)%Q /\
    ((precision_micro rep <= 1)%Q <-> (0 <= Zsum (map FP_i cs) \/ dp = 0)) /\
    ((recall_micro rep <= 1)%Q <-> (0 <= Zsum (map FN_i cs) \/ dr = 0)).
Proof.
  intros Hr. apply compute_all_metrics_returns in Hr as [rep H].
  exists rep. split; [exact H|].
  apply compute_inv in H as (cs & _ & -> & Hsnd & _ & Hs).
  rewrite Hsnd. clear Hsnd. simpl.
  rewrite !Zsum_add.
  apply totals_sound in Hs. unfold TP_total, FP_total, FN_total in *.
  destruct Hs as (Htp & Hdp & Hdr).
  repeat split.
  - intros Hne. apply ratio_pos. lia.
  - intros He. apply ratio_nonpos. lia.
  - intros Hne. apply ratio_pos. lia.
  - intros He. apply ratio_nonpos. lia.
  - now apply ratio_nonneg.
  - now apply ratio_nonneg.
  - rewrite ratio_le_1. lia.
  - rewrite ratio_le_1. lia.
  - rewrite ratio_le_1. lia.
  - rewrite ratio_le_1. lia.
Qed.

(** The two-paper scenario: both values lie between 0 and 1. *)
Lemma C3_micro_amended_witness :
  forallb (readable no_eval) scenario_df = true /\
  exists rep,
    compute_all_metrics no_eval scenario_df = Some rep /\
    (0 <= precision_micro rep)%Q /\ (0 <= recall_micro rep)%Q.
Proof.
  split; [reflexivity|].
  destruct (@C3_micro_amended no_eval scenario_df eq_refl)
    as (rep & Hrep & _ & _ & _ & _ & Hp & Hq & _).
  exists rep. split; [exact Hrep|]. split; [exact Hp | exact Hq].
Defined.



(** C9: macro precision and macro recall are the unweighted means, over
    all papers of the table, of TP_i / (TP_i + FP_i) and
    TP_i / (TP_i + FN_i), a ratio being 0 when its denominator is 0. *)
Theorem C9_macro_average (py_eval : string -> option pyval) (resp_df : frame) :
  forallb (readable py_eval) resp_df = true ->
  resp_df <> [] ->
  exists rep,
    compute_all_metrics py_eval resp_df = Some rep /\
    precision_macro rep
    = Some (Qsum (map (fun dc => spec_ratio (TP_i (snd dc)) (TP_i (snd dc) + FP_i (snd dc)))
                      (per_paper rep))
            / inject_Z (Z.of_nat (List.length resp_df)))%Q /\
    recall_macro rep
    = Some (Qsum (map (fun dc => spec_ratio (TP_i (snd dc)) (TP_i (snd dc) + FN_i (snd dc)))
                      (per_paper rep))
            / inject_Z (Z.of_nat (List.length resp_df)))%Q.
Proof.
  intros Hr Hne. apply compute_all_metrics_returns in Hr as [rep H].
  exists rep. split; [exact H|].
  apply compute_inv in H as (cs & Hcs & -> & _ & Hlen & Hs). simpl.
  assert (Hids : List.length (map doi resp_df) = List.length cs)
    by (rewrite length_map; auto).
  pose proof (map_combine_snd (fun c => spec_ratio (TP_i c) (TP_i c + FP_i c)) _ _ Hids) as Ep.
  pose proof (map_combine_snd (fun c => spec_ratio (TP_i c) (TP_i c + FN_i c)) _ _ Hids) as Er.
  cbv beta in Ep, Er. rewrite Ep, Er. clear Ep Er.
  assert (Hp : map per_prec cs = map (fun c => spec_ratio (TP_i c) (TP_i c + FP_i c)) cs).
  { apply map_ext_in. intros c Hin. rewrite Forall_forall in Hs.
    destruct (Hs c Hin) as (_ & H2 & _). now apply ratio_spec_ratio. }
  assert (Hq : map per_rec cs = map (fun c => spec_ratio (TP_i c) (TP_i c + FN_i c)) cs).
  { apply map_ext_in. intros c Hin. rewrite Forall_forall in Hs.
    destruct (Hs c Hin) as (_ & _ & H3). now apply ratio_spec_ratio. }
  rewrite <- Hp, <- Hq. unfold mean. rewrite <- Hlen, <- !(length_map per_prec cs).
  destruct cs as [|c cs]; [destruct resp_df; [congruence | discriminate]|].
  simpl. rewrite !length_map. auto.
Qed.

(** The two-paper scenario: P2, whose precision denominator is 0, counts
    in the mean with ratio 0, so macro precision is (2/3 + 0) / 2. *)
Lemma C9_macro_average_witness :
  forallb (readable no_eval) scenario_df = true /\
  scenario_df <> [] /\
  exists rep p,
    compute_all_metrics no_eval scenario_df = Some rep /\
    precision_macro rep = Some p /\ (p == 1 # 3)%Q.
Proof.
  assert (Hne : scenario_df <> []) by discriminate.
  split; [reflexivity|]. split; [exact Hne|].
  destruct (@C9_macro_average no_eval scenario_df eq_refl Hne) as (rep & Hrep & Hp & _).
  eexists rep, _. split; [exact Hrep|]. split; [exact Hp|].
  vm_compute in Hrep. inversion Hrep. reflexivity.
Defined.

(** C10: a [matches] cell that is not a string, a list of match objects
    included, is replaced by the empty list; the row is then counted with
    TP_i = the number of match descriptions, the maximum with the number
    of match objects having no effect. *)
Theorem C10_list_matches_count_for_nothing (py_eval : string -> option pyval)
    (r : row) (x x_md x_e ann : pyval) (k : Z) :
  col "matches" r = Some x -> is_str x = false ->
  col "match_descriptions" r = Some x_md ->
  col "errors" r = Some x_e ->
  col "error_annotation" r = Some ann -> py_len ann = Some k ->
  norm_matches py_eval x = Some (PyList []) /\
  exists lmd le,
    py_len (norm_list x_md) = Some lmd /\ py_len (norm_list x_e) = Some le /\
    Z.max 0 lmd = lmd /\
    paper_counts py_eval r = Some (mkCounts k lmd (le - lmd) (k - lmd)).
Proof.
  intros Hm Hx Hmd He Hann Hk.
  assert (Hn : norm_matches py_eval x = Some (PyList []))
    by (destruct x; simpl in *; congruence).
  split; [exact Hn|].
  destruct (norm_list_sized x_md) as (lmd & Hlmd & Hpos).
  destruct (norm_list_sized x_e) as (le & Hle & _).
  exists lmd, le. repeat split; auto; [lia|].
  unfold paper_counts, normalized. rewrite Hm; simpl. rewrite Hn; simpl.
  rewrite Hmd; simpl. rewrite He; simpl. rewrite Hann; simpl. rewrite Hk; simpl.
  rewrite Hlmd; simpl. rewrite Hle; simpl.
  replace (Z.max 0 lmd) with lmd by lia. reflexivity.
Qed.

(** A row with two match objects and no description: TP_i is 0. *)
Lemma C10_list_matches_count_for_nothing_witness :
  col "matches" undescribed_row = Some (PyList [PyDict []; PyDict []]) /\
  is_str (PyList [PyDict []; PyDict []]) = false /\
  col "match_descriptions" undescribed_row = Some PyNaN /\
  col "errors" undescribed_row = Some (strs ["e1"; "e2"]) /\
  col "error_annotation" undescribed_row = Some (strs ["a1"; "a2"]) /\
  py_len (strs ["a1"; "a2"]) = Some 2 /\
  norm_matches no_eval (PyList [PyDict []; PyDict []]) = Some (PyList []) /\
  paper_counts no_eval undescribed_row = Some (mkCounts 2 0 2 2).
Proof.
  do 6 (split; [reflexivity|]).
  destruct (@C10_list_matches_count_for_nothing no_eval undescribed_row
              (PyList [PyDict []; PyDict []]) PyNaN (strs ["e1"; "e2"]) (strs ["a1"; "a2"]) 2
              eq_refl eq_refl eq_refl eq_refl eq_refl eq_refl)
    as (Hn & lmd & le & Hlmd & Hle & _ & Hc).
  split; [exact Hn|].
  simpl in Hlmd, Hle. inversion Hlmd; inversion Hle; subst. exact Hc.
Defined.

End MetricsClaims.


(* ------------------------------------------------------------------ *)
(** ** Record normalizer *)

Section NormalizerClaims.

Import Normalizer Examples.

Lemma insert_key_row (r : row) (rs : list row) :
  insert_key (doi r) (map doi rs) = map doi (insert_row r rs).
Proof.
  induction rs as [|r' rs IH]; simpl; auto.
  destruct (String.leb (doi r) (doi r')); simpl; congruence.
Qed.

Lemma sort_keys_rows (rs : list row) :
  sort_keys (map doi rs) = map doi (sort_rows rs).
Proof.
  induction rs as [|r rs IH]; simpl; auto.
  rewrite IH. apply insert_key_row.
Qed.

Lemma insert_row_In (r x : row) (rs : list row) :
  In x (insert_row r rs) <-> x = r \/ In x rs.
Proof.
  induction rs as [|r' rs IH]; simpl.
  - intuition congruence.
  - destruct (String.leb (doi r) (doi r')); simpl; rewrite ?IH; intuition congruence.
Qed.

Lemma sort_rows_In (x : row) (rs : list row) : In x (sort_rows rs) <-> In x rs.
Proof.
  induction rs as [|r rs IH]; simpl; [tauto|].
  rewrite insert_row_In, IH. intuition congruence.
Qed.

(** With one row per identifier, every group is a single row. *)
Lemma group_alone (df : frame) (r : row) :
  NoDup (map doi df) -> In r df -> group (doi r) df = [r].
Proof.
  unfold group. induction df as [|r' df IH]; simpl; intros Hnd Hin; [tauto|].
  inversion Hnd as [|? ? Hnotin Hnd']; subst.
  destruct Hin as [->|Hin].
  - rewrite String.eqb_refl. f_equal.
    clear IH Hnd Hnd'. induction df as [|r0 df IH]; simpl in *; auto.
    destruct (String.eqb_spec (doi r0) (doi r)) as [E|E].
    + exfalso. apply Hnotin. left. exact E.
    + apply IH. tauto.
  - destruct (String.eqb_spec (doi r') (doi r)) as [E|E].
    + exfalso. apply Hnotin. rewrite E. now apply in_map.
    + now apply IH.
Qed.

Lemma agg_dict_kind (columns : list string) (ca : string * agg) :
  In ca (agg_dict columns) ->
  snd ca = if is_list_col (fst ca) then AggList else AggFirst.
Proof.
  unfold agg_dict. rewrite in_map_iff. intros (c & <- & _). reflexivity.
Qed.

Lemma apply_agg_alone (c : string) (v : pyval) :
  apply_agg (if is_list_col c then AggList else AggFirst) [v] = wrap_cell c v.
Proof.
  unfold wrap_cell. destruct (is_list_col c); simpl; auto.
  unfold first; simpl. destruct (is_null v); reflexivity.
Qed.

Lemma agg_group_alone (columns : list string) (r : row) :
  agg_group (agg_dict columns) (doi r) [r] = wrap_row columns r.
Proof.
  unfold agg_group, wrap_row. f_equal. apply map_ext_in. intros ca Hin.
  rewrite (agg_dict_kind _ _ Hin). simpl. now rewrite apply_agg_alone.
Qed.

Lemma leb_false_flip (a b : string) : String.leb a b = false -> String.leb b a = true.
Proof. intros H. destruct (String.leb_total a b) as [E|E]; congruence. Qed.

Lemma insert_key_ascending (k : string) (ks : list string) :
  ascending ks = true -> ascending (insert_key k ks) = true.
Proof.
  induction ks as [|k1 ks IH]; simpl; auto.
  intros H. destruct (String.leb k k1) eqn:E.
  - simpl. rewrite E. exact H.
  - destruct ks as [|k2 ks]; simpl in *.
    + now rewrite (leb_false_flip _ _ E).
    + apply andb_true_iff in H as [H12 H2].
      destruct (String.leb k k2) eqn:E2.
      * simpl. rewrite (leb_false_flip _ _ E), E2. exact H2.
      * simpl. rewrite H12. simpl. apply IH. exact H2.
Qed.

Lemma sort_keys_ascending (ks : list string) : ascending (sort_keys ks) = true.
Proof. induction ks; simpl; auto using insert_key_ascending. Qed.

Lemma insert_key_In (k x : string) (ks : list string) :
  In x (insert_key k ks) <-> x = k \/ In x ks.
Proof.
  induction ks as [|k' ks IH]; simpl.
  - intuition congruence.
  - destruct (String.leb k k'); simpl; rewrite ?IH; intuition congruence.
Qed.

Lemma insert_key_NoDup (k : string) (ks : list string) :
  ~ In k ks -> NoDup ks -> NoDup (insert_key k ks).
Proof.
  induction ks as [|k' ks IH]; simpl; intros Hk Hnd.
  - constructor; auto.
  - destruct (String.leb k k').
    + constructor; auto.
    + inversion Hnd; subst. constructor.
      * rewrite insert_key_In. intuition congruence.
      * apply IH; auto.
Qed.

Lemma sort_keys_In (x : string) (ks : list string) : In x (sort_keys ks) <-> In x ks.
Proof.
  induction ks as [|k ks IH]; simpl; [tauto|].
  rewrite insert_key_In, IH. intuition congruence.
Qed.

Lemma sort_keys_NoDup (ks : list string) : NoDup ks -> NoDup (sort_keys ks).
Proof.
  induction 1 as [|k ks Hk Hnd IH]; simpl; [constructor|].
  apply insert_key_NoDup; auto. now rewrite sort_keys_In.
Qed.

Lemma normalize_ids (columns : list string) (df : frame) :
  map doi (normalize columns df) = group_keys df.
Proof. unfold normalize. rewrite map_map. simpl. apply map_id. Qed.

Lemma sort_rows_ascending (rs : list row) :
  ascending (map doi rs) = true -> sort_rows rs = rs.
Proof.
  induction rs as [|r rs IH]; simpl; auto.
  intros H. destruct rs as [|r' rs].
  - reflexivity.
  - simpl in H. apply andb_true_iff in H as [H1 H2].
    rewrite (IH H2). simpl. now rewrite H1.
Qed.

(** With one row per identifier, the normalizer sorts the rows and wraps
    each of them. *)
Lemma normalize_alone (columns : list string) (df : frame) :
  NoDup (map doi df) ->
  normalize columns df = map (wrap_row columns) (sort_rows df).
Proof.
  intros Hnd. unfold normalize, group_keys.
  rewrite (nodup_fixed_point string_dec Hnd), sort_keys_rows, map_map.
  apply map_ext_in. intros r Hin. apply (proj1 (sort_rows_In r df)) in Hin.
  rewrite (group_alone _ _ Hnd Hin). apply agg_group_alone.
Qed.

Lemma flat_df_normalized : normalize dataset_columns raw_df = flat_df.
Proof. reflexivity. Qed.

Lemma flat_df_one_row_per_identifier : NoDup (map doi flat_df).
Proof.
  simpl. constructor.
  - simpl. intros [H|[]]. discriminate H.
  - constructor; [intros [] | constructor].
Defined.

(** C5, as stated, fails: the table the normalizer makes of the raw
    dataset has one row per identifier, and normalizing it again gives
    another table (its list-valued cells are lists of lists). *)
Lemma C5_counterexample :
  flat_df = normalize dataset_columns raw_df /\
  NoDup (map doi flat_df) /\
  normalize dataset_columns flat_df <> flat_df.
Proof.
  split; [reflexivity|]. split; [exact flat_df_one_row_per_identifier|].
  intros H. vm_compute in H. discriminate H.
Qed.

(** C5, amended: applied to a table with one row per identifier, the
    normalizer returns the rows in identifier order, each with the same
    identifier, with every first-valued cell as it was (a missing cell
    stays missing) and with every cell of paper_category, error_location
    and error_annotation wrapped into a one-element list; in particular,
    applied to its own output it keeps the rows and their order and wraps
    the list-valued cells once more. *)
Theorem C5_normalize_one_row_per_identifier (columns : list string) (df : frame) :
  (NoDup (map doi df) ->
   normalize columns df = map (wrap_row columns) (sort_rows df)) /\
  normalize columns (normalize columns df)
  = map (wrap_row columns) (normalize columns df).
Proof.
  split; [apply normalize_alone|].
  rewrite normalize_alone.
  - f_equal. apply sort_rows_ascending.
    rewrite normalize_ids. apply sort_keys_ascending.
  - rewrite normalize_ids. apply sort_keys_NoDup, NoDup_nodup.
Qed.

Lemma C5_normalize_one_row_per_identifier_witness :
  NoDup (map doi flat_df) /\
  normalize dataset_columns flat_df = map (wrap_row dataset_columns) (sort_rows flat_df).
Proof.
  split; [exact flat_df_one_row_per_identifier|].
  apply (proj1 (C5_normalize_one_row_per_identifier dataset_columns flat_df)).
  exact flat_df_one_row_per_identifier.
Defined.

End NormalizerClaims.

(* ------------------------------------------------------------------ *)
(** ** Reviewer retry loop *)

Section ClientClaims.

Import Client.

Variables World Query Response : Type.
Variable completion : Query -> World -> outcome Response * World.

Lemma attempts_logged (n : nat) :
  forall (start : nat) (qry : Query) (responses : list (option Response))
         (w : World) (log : list (outcome Response)),
    start + n = 5 -> 0 < n ->
    exists new slot w',
      attempts (logging completion) (seq (S start) n) qry responses (w, log)
      = (responses ++ [slot], (w', log ++ new)) /\
      attempt_result n new slot.
Proof.
  induction n as [|n IH]; intros start qry responses w log Hs Hn; [inversion Hn|].
  simpl. unfold logging at 1. simpl.
  destruct (completion qry w) as [[res|] w'] eqn:E; simpl.
  - exists [Returned res], (Some res), w'. split; auto.
    right. exists res, 0. repeat split; auto using Nat.lt_0_succ.
  - assert (Hs' : S start + n = 5) by (rewrite <- Hs; simpl; now rewrite Nat.add_succ_r).
    destruct n as [|n].
    + assert (start = 4) by (rewrite Nat.add_0_r in Hs'; now inversion Hs').
      subst start. simpl.
      exists [Raised], None, w'. split; auto. left. auto.
    + assert (Hne : Nat.eqb start 4 = false).
      { apply Nat.eqb_neq. intros ->. simpl in Hs'. discriminate. }
      rewrite Hne.
      destruct (IH (S start) qry responses w' (log ++ [Raised]) Hs' (Nat.lt_0_succ _))
        as (new & slot & w'' & Hr & Hres).
      exists (Raised :: new), slot, w''. rewrite Hr, <- app_assoc. simpl.
      split; auto.
      destruct Hres as [[-> ->]|(res & j & -> & Hj & ->)].
      * left. auto.
      * right. exists res, (S j). repeat split; auto. now apply -> Nat.succ_lt_mono.
Qed.

Lemma attempts_one_slot (n : nat) :
  forall (start : nat) (qry : Query) (responses : list (option Response)) (w : World),
    start + n = 5 -> 0 < n ->
    exists slot w',
      attempts completion (seq (S start) n) qry responses w = (responses ++ [slot], w').
Proof.
  induction n as [|n IH]; intros start qry responses w Hs Hn; [inversion Hn|].
  simpl. destruct (completion qry w) as [[res|] w'] eqn:E.
  - eauto.
  - assert (Hs' : S start + n = 5) by (rewrite <- Hs; simpl; now rewrite Nat.add_succ_r).
    destruct n as [|n].
    + assert (start = 4) by (rewrite Nat.add_0_r in Hs'; now inversion Hs').
      subst start. simpl. eauto.
    + assert (Hne : Nat.eqb start 4 = false).
      { apply Nat.eqb_neq. intros ->. simpl in Hs'. discriminate. }
      rewrite Hne. apply IH; auto using Nat.lt_0_succ.
Qed.

Lemma attempt_result_length (budget : nat) (new : list (outcome Response))
    (slot : option Response) :
  0 < budget -> attempt_result budget new slot ->
  1 <= List.length new <= budget.
Proof.
  intros Hb [[_ ->]|(res & j & _ & Hj & ->)].
  - rewrite repeat_length. lia.
  - rewrite length_app, repeat_length. simpl. lia.
Qed.

Lemma reviewer_loop_slots (qrys : list Query) :
  forall (responses : list (option Response)) (w : World),
    exists slots w',
      reviewer_loop completion qrys responses w = (responses ++ slots, w') /\
      List.length slots = List.length qrys.
Proof.
  induction qrys as [|qry rest IH]; intros responses w; cbn [reviewer_loop].
  - exists [], w. rewrite app_nil_r. auto.
  - destruct (@attempts_one_slot 5 0 qry responses w eq_refl (Nat.lt_0_succ _))
      as (slot & w' & Hr).
    unfold attempt_range. rewrite Hr.
    destruct (IH (responses ++ [slot]) w') as (slots & w'' & Hl & Hlen).
    rewrite Hl. exists (slot :: slots), w''. rewrite <- app_assoc. simpl. auto.
Qed.

Lemma reviewer_loop_logged (qrys : list Query) :
  forall (responses : list (option Response)) (w : World) (log : list (outcome Response)),
    exists slots w' new,
      reviewer_loop (logging completion) qrys responses (w, log)
      = (responses ++ slots, (w', log ++ new)) /\
      List.length slots = List.length qrys /\
      List.length new <= 5 * List.length qrys.
Proof.
  induction qrys as [|qry rest IH]; intros responses w log; cbn [reviewer_loop].
  - exists [], w, []. rewrite !app_nil_r. auto.
  - destruct (@attempts_logged 5 0 qry responses w log eq_refl (Nat.lt_0_succ _))
      as (new & slot & w' & Hr & Hres).
    unfold attempt_range. rewrite Hr.
    destruct (IH (responses ++ [slot]) w' (log ++ new))
      as (slots & w'' & new' & Hl & Hlen & Hcalls).
    rewrite Hl. exists (slot :: slots), w'', (new ++ new').
    rewrite <- !app_assoc. simpl. repeat split; auto.
    apply attempt_result_length in Hres; [|lia].
    rewrite length_app. lia.
Qed.

(** C6: for each paper the completion call is made at least once and at
    most 5 times, one call right after the other; the attempts stop at
    the first call that returns, whose response fills the paper's slot;
    when all 5 calls raise, the slot is filled with None. Whatever the
    attempts for a paper did, the loop goes on with the next paper, so
    the responses have exactly one slot per paper and a batch makes at
    most 5 calls per paper. *)
Theorem C6_reviewer_retry :
  (forall (qry : Query) (responses : list (option Response)) (w : World)
          (log : list (outcome Response)),
     exists new slot w',
       attempts (logging completion) attempt_range qry responses (w, log)
       = (responses ++ [slot], (w', log ++ new)) /\
       1 <= List.length new <= 5 /\
       ((slot = None /\ new = repeat Raised 5) \/
        (exists res j, slot = Some res /\ j < 5 /\
                       new = repeat Raised j ++ [Returned res]))) /\
  (forall (qry : Query) (rest : list Query) (responses : list (option Response))
          (w : World),
     reviewer_loop completion (qry :: rest) responses w
     = reviewer_loop completion rest
         (fst (attempts completion attempt_range qry responses w))
         (snd (attempts completion attempt_range qry responses w))) /\
  (forall (qrys : list Query) (w : World),
     List.length (fst (run_reviewer completion qrys w)) = List.length qrys) /\
  (forall (qrys : list Query) (w : World),
     List.length (snd (snd (run_reviewer (logging completion) qrys (w, []))))
     <= 5 * List.length qrys).
Proof.
  repeat split.
  - intros qry responses w log.
    destruct (@attempts_logged 5 0 qry responses w log eq_refl (Nat.lt_0_succ _))
      as (new & slot & w' & Hr & Hres).
    exists new, slot, w'. split; [exact Hr|]. split; [|exact Hres].
    apply attempt_result_length in Hres; lia.
  - intros qry rest responses w. cbn [reviewer_loop].
    destruct (attempts completion attempt_range qry responses w); reflexivity.
  - intros qrys w. unfold run_reviewer.
    destruct (reviewer_loop_slots qrys [] w) as (slots & w' & Hl & Hlen).
    rewrite Hl. simpl. exact Hlen.
  - intros qrys w. unfold run_reviewer.
    destruct (reviewer_loop_logged qrys [] w []) as (slots & w' & new & Hl & _ & Hc).
    rewrite Hl. simpl. exact Hc.
Qed.

End ClientClaims.

(* ------------------------------------------------------------------ *)
(** ** Response parser and reviewer table *)

Section ParserClaims.

Import Parser Examples.

Variable Response : Type.
Variable interpret : Response -> option structured.

Lemma extract_unusable (raw : option Response) :
  unusable interpret raw -> extract_response_dict interpret raw = [("parsed", PyBool false)].
Proof.
  intros [->|(res & -> & H)]; simpl; [reflexivity|]. now rewrite H.
Qed.

(** C7: the parse step returns a table for every list of raw responses
    (one row per paper, no exception), and the row of a paper whose
    response is absent or cannot be interpreted has parsed = False,
    is_error = True and the empty list of errors; having parsed = False,
    it is not an error case for the judge stage. *)
Theorem C7_unusable_response_row (papers : list string)
    (raws : list (option Response)) :
  List.length papers = List.length raws ->
  exists resp_df,
    reviewer_table papers (map (extract_response_dict interpret) raws) = Some resp_df /\
    map doi resp_df = papers /\
    Forall2
      (fun raw r =>
         unusable interpret raw ->
         col "parsed" r = Some (PyBool false) /\
         col "is_error" r = Some (PyBool true) /\
         col "errors" r = Some (PyList []) /\
         Judge.is_error_case r = Some false)
      raws resp_df.
Proof.
  intros Hlen. unfold reviewer_table. rewrite length_map, Hlen, Nat.eqb_refl.
  eexists. split; [reflexivity|].
  revert raws Hlen. induction papers as [|p papers IH]; intros [|raw raws] Hlen;
    simpl in *; try discriminate.
  - split; constructor.
  - destruct (IH raws) as [Hids Hrows]; [congruence|].
    split; [now rewrite Hids|].
    constructor; [|exact Hrows].
    intros Hu. rewrite (extract_unusable Hu).
    repeat split; reflexivity.
Qed.

End ParserClaims.

Section ParserWitness.

Import Parser Examples.

(** Two papers: no response for the first, a response that cannot be
    interpreted for the second. *)
Lemma C7_unusable_response_row_witness :
  List.length ["10.1234/abc123"; "arXiv:2401.06455"]
  = List.length [@None string; Some "not json"] /\
  exists resp_df,
    reviewer_table ["10.1234/abc123"; "arXiv:2401.06455"]
      (map (extract_response_dict (fun _ : string => None)) [None; Some "not json"])
    = Some resp_df /\
    map doi resp_df = ["10.1234/abc123"; "arXiv:2401.06455"].
Proof.
  split; [reflexivity|].
  destruct (@C7_unusable_response_row string (fun _ => None)
              ["10.1234/abc123"; "arXiv:2401.06455"] [None; Some "not json"] eq_refl)
    as (resp_df & Htable & Hids & _).
  exists resp_df. split; [exact Htable | exact Hids].
Defined.

End ParserWitness.

(* ------------------------------------------------------------------ *)
(** ** Judge stage and the whole run *)

Section JudgeClaims.

Import Parser Judge Pipeline Examples.

(** The identifiers of the judge records are the first identifiers of
    the whole table, as many as there are judge answers. *)
Lemma judge_records_ids (resp_df : frame) (parsed_results : list dict)
    (records : list row) :
  judge_records resp_df parsed_results = Some records ->
  map doi records = firstn (List.length parsed_results) (map doi resp_df).
Proof.
  unfold judge_records. revert parsed_results records.
  induction resp_df as [|r df IH]; intros [|res rs] records H; simpl in *;
    try (inversion H; reflexivity).
  apply bind_Some in H as (rec & Hrec & H).
  apply bind_Some in H as (recs & Hrecs & H).
  inversion H; subst; clear H. simpl. f_equal.
  - unfold judge_record in Hrec. inv_bind Hrec. inversion Hrec. reflexivity.
  - now apply IH.
Qed.

(** A judge answer whose matches are a list of match objects is stored
    as that list, with one description per object. *)
Lemma judge_record_stores_list (id : string) (res : dict) (ms : list pyval) (r : row) :
  lookup "matches" res = Some (PyList ms) ->
  judge_record id res = Some r ->
  doi r = id /\
  col "matches" r = Some (PyList ms) /\
  exists ds, col "match_descriptions" r = Some (PyList ds) /\
             List.length ds = List.length ms.
Proof.
  unfold judge_record, get. intros Hm H. rewrite Hm in H. simpl in H.
  apply bind_Some in H as (ds & Hds & H). inversion H; subst; clear H.
  repeat split. exists ds. split; [reflexivity|].
  now apply traverse_length in Hds.
Qed.

(** The defaults of the three comprehensions: a parsed result that says
    nothing is a paper that is not parsed, has an error and no finding. *)
Lemma reviewer_row_defaults (paper : string) :
  reviewer_row paper []
  = mkRow paper [("parsed", PyBool false); ("is_error", PyBool true);
                 ("errors", PyList [])].
Proof. reflexivity. Qed.

Lemma demo_reviewer_stage_run : demo_reviewer_stage flat_df 0 = Some demo_resp_df.
Proof. reflexivity. Qed.

(** C1 on the two-paper table: paper A (first row) has no parsed reviewer
    result and paper B (second row) is the only error case, so the one
    judge prompt is made from B's annotations and predictions; the judge's
    answer to that prompt is attached to paper A, and paper B is left with
    null match fields. *)
Theorem C1_judge_answer_attached_by_table_position :
  exists rowA rowB payloadB,
    demo_resp_df = [rowA; rowB] /\
    is_error_case rowA = Some false /\
    is_error_case rowB = Some true /\
    judge_payload rowB = Some payloadB /\
    judge_queries "JUDGE" render demo_resp_df
    = Some [PyList [message "system" "JUDGE"; message "user" (render payloadB)]] /\
    demo_judge_stage demo_resp_df
    = Some [mkRow (doi rowA)
              (cells rowA ++ [("matches", PyList [match_obj (render payloadB)]);
                              ("match_descriptions", strs [render payloadB])]);
            mkRow (doi rowB) (cells rowB ++ null_match_cells)].
Proof.
  do 3 eexists. split; [reflexivity|].
  split; [reflexivity|]. split; [reflexivity|].
  split; [reflexivity|]. split; reflexivity.
Qed.

(** C8 on the two-paper dataset: the reviewer call for paper A raises five
    times, so A's response is None, and paper B gets one predicted error;
    the run scores paper A with TP = 1, FP = -1, FN = 0 (k = 1) instead of
    TP = 0, FP = 0, FN = 1, because the judge's answer for B is attached
    to A. *)
Theorem C8_unreached_paper_scored_with_foreign_matches :
  exists qA qB resB merged rep,
    traverse (reviewer_query "REVIEW" text_of) flat_df = Some [qA; qB] /\
    Client.run_reviewer demo_completion [qA; qB] 0 = ([None; Some resB], 6) /\
    demo_run_eval flat_df 0 = Some (merged, rep) /\
    Metrics.per_paper rep
    = [("10.1234/abc123", Metrics.mkCounts 1 1 (-1) 0);
       ("arXiv:2401.06455", Metrics.mkCounts 2 0 1 2)].
Proof.
  do 5 eexists. split; [reflexivity|].
  split; [reflexivity|]. split; reflexivity.
Qed.

(** When no paper is an error case there is no judge record, the frame of
    records has no identifier column, and the merge fails: a run in which
    no reviewer call succeeds returns no score at all. *)
Lemma run_eval_without_error_case :
  reviewer_stage "REVIEW" text_of down_completion demo_interpret flat_df 0 <> None /\
  run_eval "REVIEW" "JUDGE" text_of render down_completion demo_batch
    demo_interpret no_eval flat_df 0 = None.
Proof. split; [discriminate | reflexivity]. Qed.

End JudgeClaims.

(* ================================================================== *)
(** * Further properties *)

(* ------------------------------------------------------------------ *)
(** ** Result files *)

Section FilesFacts.

Import Files.

Lemma replace_char_length (old new : ascii) (s : string) :
  String.length (replace_char old new s) = String.length s.
Proof. induction s; simpl; congruence. Qed.

Lemma replace_char_removes (old new : ascii) (s : string) :
  new <> old -> occurrences old (replace_char old new s) = 0.
Proof.
  intros Hne. induction s as [|c s IH]; simpl; auto.
  rewrite IH. destruct (Ascii.eqb_spec c old) as [->|Hc].
  - apply Ascii.eqb_neq in Hne. now rewrite Hne.
  - apply Ascii.eqb_neq in Hc. now rewrite Hc.
Qed.

Lemma replace_char_keeps_absent (old new c : ascii) (s : string) :
  new <> c -> occurrences c s = 0 -> occurrences c (replace_char old new s) = 0.
Proof.
  intros Hne. induction s as [|c' s IH]; simpl; auto.
  destruct (Ascii.eqb_spec c' c) as [->|Hc]; [discriminate|].
  intros H. rewrite (IH H).
  destruct (Ascii.eqb c' old).
  - apply Ascii.eqb_neq in Hne. now rewrite Hne.
  - apply Ascii.eqb_neq in Hc. now rewrite Hc.
Qed.

Lemma replace_char_absent (old new : ascii) (s : string) :
  occurrences old s = 0 -> replace_char old new s = s.
Proof.
  induction s as [|c s IH]; simpl; auto.
  destruct (Ascii.eqb c old); [discriminate|].
  intros H. now rewrite (IH H).
Qed.

Lemma occurrences_append (c : ascii) (a b : string) :
  occurrences c (a ++ b) = occurrences c a + occurrences c b.
Proof. induction a; simpl; auto. rewrite IHa. apply Nat.add_assoc. Qed.

Lemma safe_model_name_clean (model_name : string) :
  occurrences "/" (safe_model_name model_name) = 0 /\
  occurrences "." (safe_model_name model_name) = 0.
Proof.
  unfold safe_model_name. split.
  - apply replace_char_keeps_absent; [discriminate|].
    apply replace_char_removes. discriminate.
  - apply replace_char_removes. discriminate.
Qed.

(** The digits of a number hold no character but digits. *)
Lemma string_of_uint_digits (c : ascii) (d : Decimal.uint) :
  (forall n, n < 10 -> c <> ascii_of_nat (48 + n)) ->
  occurrences c (NilEmpty.string_of_uint d) = 0.
Proof.
  intros Hc.
  assert (H : forall n a, n < 10 -> a = ascii_of_nat (48 + n) -> Ascii.eqb a c = false).
  { intros n a Hn ->. apply Ascii.eqb_neq. intros E. now apply (Hc n Hn). }
  induction d; cbn [NilEmpty.string_of_uint occurrences]; auto; rewrite IHd.
  - now rewrite (H 0 "0"%char) by (auto; lia).
  - now rewrite (H 1 "1"%char) by (auto; lia).
  - now rewrite (H 2 "2"%char) by (auto; lia).
  - now rewrite (H 3 "3"%char) by (auto; lia).
  - now rewrite (H 4 "4"%char) by (auto; lia).
  - now rewrite (H 5 "5"%char) by (auto; lia).
  - now rewrite (H 6 "6"%char) by (auto; lia).
  - now rewrite (H 7 "7"%char) by (auto; lia).
  - now rewrite (H 8 "8"%char) by (auto; lia).
  - now rewrite (H 9 "9"%char) by (auto; lia).
Qed.

Lemma not_a_digit (c : ascii) :
  nat_of_ascii c < 48 -> forall n, n < 10 -> c <> ascii_of_nat (48 + n).
Proof.
  intros Hc n Hn ->. rewrite nat_ascii_embedding in Hc; lia.
Qed.

Lemma str_of_int_clean (c : ascii) (idx : Z) :
  nat_of_ascii c < 48 -> c <> "-"%char -> occurrences c (str_of_int idx) = 0.
Proof.
  intros Hc Hm. pose proof (@not_a_digit c Hc) as Hd.
  assert (Hu : forall d, occurrences c (NilZero.string_of_uint d) = 0).
  { intros d. destruct d; try apply (@string_of_uint_digits c _ Hd).
    cbn [NilZero.string_of_uint occurrences].
    destruct (Ascii.eqb_spec "0" c) as [<-|]; auto.
    change (nat_of_ascii "0") with 48 in Hc. lia. }
  unfold str_of_int. destruct (Z.to_int idx); cbn [NilZero.string_of_int occurrences];
    rewrite Hu; auto.
  destruct (Ascii.eqb_spec "-" c) as [<-|]; auto. congruence.
Qed.

Lemma append_inv_head (a b c : string) : (a ++ b = a ++ c)%string -> b = c.
Proof. induction a; simpl; intros H; auto. inversion H. auto. Qed.

Lemma length_append (a b : string) :
  String.length (a ++ b) = String.length a + String.length b.
Proof. induction a; simpl; auto. Qed.

Lemma append_inv_tail (a b c : string) : (a ++ c = b ++ c)%string -> a = b.
Proof.
  revert b. induction a as [|x a IH]; intros [|y b] H; simpl in *; auto.
  - apply (f_equal String.length) in H. simpl in H. rewrite length_append in H. lia.
  - apply (f_equal String.length) in H. simpl in H. rewrite length_append in H. lia.
  - inversion H. f_equal. auto.
Qed.

Lemma str_of_int_inj (i j : Z) : str_of_int i = str_of_int j -> i = j.
Proof.
  unfold str_of_int. intros H. apply DecimalZ.to_int_inj.
  assert (Hn : forall z, Z.to_int z <> Decimal.Pos Decimal.Nil /\
                         Z.to_int z <> Decimal.Neg Decimal.Nil).
  { intros [|p|p]; simpl; split; try discriminate; intros E; inversion E;
      now apply (@DecimalPos.Unsigned.to_uint_nonnil p). }
  destruct (Hn i) as [Hi1 Hi2]. destruct (Hn j) as [Hj1 Hj2].
  pose proof (NilZero.isi _ Hi1 Hi2) as Ei. pose proof (NilZero.isi _ Hj1 Hj2) as Ej.
  rewrite H in Ei. congruence.
Qed.

(** X17: the safe model name has the length of the model name and holds
    neither "/" nor "."; a model name without these two characters is
    left as it is, and making a safe name safe again changes nothing. *)
Theorem X17_safe_model_name (model_name : string) :
  String.length (safe_model_name model_name) = String.length model_name /\
  occurrences "/" (safe_model_name model_name) = 0 /\
  occurrences "." (safe_model_name model_name) = 0 /\
  (occurrences "/" model_name = 0 -> occurrences "." model_name = 0 ->
   safe_model_name model_name = model_name) /\
  safe_model_name (safe_model_name model_name) = safe_model_name model_name.
Proof.
  destruct (safe_model_name_clean model_name) as [Hs Hd].
  assert (Hid : forall s, occurrences "/" s = 0 -> occurrences "." s = 0 ->
                          safe_model_name s = s).
  { intros s H1 H2. unfold safe_model_name.
    rewrite (@replace_char_absent "/" "_" s H1). now apply replace_char_absent. }
  repeat split; auto.
  unfold safe_model_name. now rewrite !replace_char_length.
Qed.

(** X18: whatever the model name and the run index, each of the two result
    paths holds exactly one "/" (the one after results_scaling) and one
    "." (the one of .csv); the two paths of a run differ, and runs with
    different indices write to different paths. *)
Theorem X18_result_paths (model_name : string) (idx : Z) :
  occurrences "/" (resp_df_path model_name idx) = 1 /\
  occurrences "/" (metrics_path model_name idx) = 1 /\
  occurrences "." (resp_df_path model_name idx) = 1 /\
  occurrences "." (metrics_path model_name idx) = 1 /\
  resp_df_path model_name idx <> metrics_path model_name idx /\
  (forall idx', resp_df_path model_name idx = resp_df_path model_name idx' -> idx = idx') /\
  (forall idx', metrics_path model_name idx = metrics_path model_name idx' -> idx = idx').
Proof.
  destruct (safe_model_name_clean model_name) as [Hs Hd].
  unfold resp_df_path, metrics_path.
  repeat split.
  - rewrite !occurrences_append, Hs, (@str_of_int_clean "/" idx); simpl; auto; try lia. discriminate.
  - rewrite !occurrences_append, Hs, (@str_of_int_clean "/" idx); simpl; auto; try lia. discriminate.
  - rewrite !occurrences_append, Hd, (@str_of_int_clean "." idx); simpl; auto; try lia. discriminate.
  - rewrite !occurrences_append, Hd, (@str_of_int_clean "." idx); simpl; auto; try lia. discriminate.
  - intros H. apply append_inv_head in H. apply append_inv_head in H. discriminate H.
  - intros idx' H. do 3 apply append_inv_head in H.
    apply append_inv_tail in H. now apply str_of_int_inj.
  - intros idx' H. do 3 apply append_inv_head in H.
    apply append_inv_tail in H. now apply str_of_int_inj.
Qed.

End FilesFacts.

(* ------------------------------------------------------------------ *)
(** ** Record normalizer on any table *)

Section NormalizerMore.

Import Normalizer Examples.

Lemma lookup_agg_group (columns : list string) (c k : string) (g : list row) :
  In c columns -> c <> "doi/arxiv_id" ->
  lookup c (cells (agg_group (agg_dict columns) k g))
  = Some (apply_agg (if is_list_col c then AggList else AggFirst) (column_values c g)).
Proof.
  intros Hin Hid. unfold agg_group, agg_dict. simpl.
  induction columns as [|c' cols IH]; simpl in *; [tauto|].
  destruct (String.eqb_spec c' "doi/arxiv_id") as [E|E]; simpl.
  - destruct Hin as [->|Hin]; [congruence | auto].
  - destruct (String.eqb_spec c c') as [->|Hne]; [reflexivity|].
    destruct Hin as [->|Hin]; [congruence | auto].
Qed.

Lemma normalize_row (columns : list string) (df : frame) (r : row) :
  In r (normalize columns df) ->
  r = agg_group (agg_dict columns) (doi r) (group (doi r) df) /\
  In (doi r) (map doi df).
Proof.
  unfold normalize. rewrite in_map_iff. intros (k & <- & Hk). simpl. split; auto.
  unfold group_keys in Hk. rewrite sort_keys_In, nodup_In in Hk. exact Hk.
Qed.

Lemma group_nonempty (k : string) (df : frame) :
  In k (map doi df) -> group k df <> [].
Proof.
  rewrite in_map_iff. intros (r & <- & Hin) E.
  assert (H : In r (group (doi r) df)).
  { unfold group. apply filter_In. split; auto. apply String.eqb_refl. }
  rewrite E in H. exact H.
Qed.

Lemma is_list_col_not_id (c : string) : is_list_col c = true -> c <> "doi/arxiv_id".
Proof. intros H ->. discriminate H. Qed.

(** X1: on any table the normalizer returns rows with pairwise different
    identifiers, in ascending identifier order, whose identifiers are
    exactly those that occur in the table; it never returns more rows
    than it was given. *)
Theorem X1_normalize_identifiers (columns : list string) (df : frame) :
  NoDup (map doi (normalize columns df)) /\
  ascending (map doi (normalize columns df)) = true /\
  (forall k, In k (map doi (normalize columns df)) <-> In k (map doi df)) /\
  List.length (normalize columns df) <= List.length df.
Proof.
  rewrite normalize_ids. unfold group_keys. repeat split.
  - apply sort_keys_NoDup, NoDup_nodup.
  - apply sort_keys_ascending.
  - rewrite sort_keys_In, nodup_In. auto.
  - rewrite sort_keys_In, nodup_In. auto.
  - rewrite <- (length_map doi (normalize columns df)), normalize_ids.
    unfold group_keys.
    assert (Hlen : forall ks, List.length (sort_keys ks) = List.length ks).
    { induction ks as [|k ks IH]; simpl; auto. rewrite <- IH.
      generalize (sort_keys ks). intros l. induction l as [|x l IHl]; simpl; auto.
      destruct (String.leb k x); simpl; auto. }
    rewrite Hlen, <- (length_map doi df).
    apply NoDup_incl_length; [apply NoDup_nodup|].
    intros k. now rewrite nodup_In.
Qed.

(** X2: in a normalized row, the cell of a list-valued column is the list
    of that column's values over the raw rows of the paper, in source row
    order; it has one entry per raw row, and there is at least one. *)
Theorem X2_normalize_list_cells (columns : list string) (df : frame) (r : row) (c : string) :
  In r (normalize columns df) -> In c columns -> is_list_col c = true ->
  let raw_rows := filter (fun raw => String.eqb (doi raw) (doi r)) df in
  raw_rows <> [] /\
  col c r = Some (PyList (map (fun raw => get (cells raw) c PyNaN) raw_rows)) /\
  (forall cell, col c r = Some cell ->
     py_len cell = Some (Z.of_nat (List.length raw_rows))).
Proof.
  intros Hr Hc Hl. destruct (@normalize_row columns df r Hr) as [Er Hk].
  pose proof (@group_nonempty _ _ Hk) as Hne.
  assert (Hcell : col c r
                  = Some (PyList (map (fun raw => get (cells raw) c PyNaN)
                                      (group (doi r) df)))).
  { unfold col. rewrite Er at 1.
    rewrite (@lookup_agg_group columns c _ _ Hc (@is_list_col_not_id c Hl)), Hl. reflexivity. }
  simpl. repeat split; auto.
  intros cell Hcell'. fold (group (doi r) df) in *. rewrite Hcell in Hcell'.
  inversion Hcell'; subst. simpl. now rewrite length_map.
Qed.

(** X3: in a normalized row, the cell of any other column is the first
    value of the paper's raw rows that is not missing: the value of the
    first raw row whenever that one is not missing, whatever the later
    rows hold, and a missing value when all of them are missing. *)
Theorem X3_normalize_first_cells (columns : list string) (df : frame) (r : row) (c : string) :
  In r (normalize columns df) -> In c columns ->
  is_list_col c = false -> c <> "doi/arxiv_id" ->
  let raw_rows := filter (fun raw => String.eqb (doi raw) (doi r)) df in
  col c r = Some (first (map (fun raw => get (cells raw) c PyNaN) raw_rows)) /\
  (forall raw rest v,
     raw_rows = raw :: rest -> lookup c (cells raw) = Some v -> is_null v = false ->
     col c r = Some v) /\
  ((forall raw, In raw raw_rows -> is_null (get (cells raw) c PyNaN) = true) ->
   exists cell, col c r = Some cell /\ is_null cell = true).
Proof.
  intros Hr Hc Hl Hid. destruct (@normalize_row columns df r Hr) as [Er Hk].
  assert (Hcell : col c r
                  = Some (first (map (fun raw => get (cells raw) c PyNaN)
                                     (group (doi r) df)))).
  { unfold col. rewrite Er at 1.
    rewrite (@lookup_agg_group columns c _ _ Hc Hid), Hl. reflexivity. }
  simpl. fold (group (doi r) df). repeat split; auto.
  - intros raw rest v Hg Hv Hnn. rewrite Hcell, Hg. simpl.
    unfold first, get. simpl. rewrite Hv, Hnn. reflexivity.
  - rewrite Hcell. clear. generalize (group (doi r) df). intros g Hall.
    exists PyNaN. split; [|reflexivity]. f_equal. unfold first.
    induction g as [|raw g IH]; simpl; auto.
    rewrite (Hall raw (or_introl eq_refl)). simpl. apply IH.
    intros raw' Hin. apply Hall. now right.
Qed.

End NormalizerMore.

(* ------------------------------------------------------------------ *)
(** ** Reviewer retry loop: outage and healthy client *)

Section ClientMore.

Import Client.

Variables World Query Response : Type.
Variable completion : Query -> World -> outcome Response * World.

(** Keeping a log of the calls does not change what the loop does. *)
Lemma attempts_logging (rng : list nat) :
  forall (qry : Query) (responses : list (option Response)) (w : World)
         (log : list (outcome Response)),
    fst (attempts (logging completion) rng qry responses (w, log))
    = fst (attempts completion rng qry responses w) /\
    fst (snd (attempts (logging completion) rng qry responses (w, log)))
    = snd (attempts completion rng qry responses w).
Proof.
  induction rng as [|a rng IH]; intros qry responses w log; simpl; auto.
  unfold logging at 1 3. simpl.
  destruct (completion qry w) as [[res|] w']; simpl; auto.
Qed.

Lemma reviewer_loop_logging (qrys : list Query) :
  forall (responses : list (option Response)) (w : World) (log : list (outcome Response)),
    fst (reviewer_loop (logging completion) qrys responses (w, log))
    = fst (reviewer_loop completion qrys responses w).
Proof.
  induction qrys as [|qry rest IH]; intros responses w log; cbn [reviewer_loop]; auto.
  destruct (attempts_logging attempt_range qry responses w log) as [H1 H2].
  destruct (attempts (logging completion) attempt_range qry responses (w, log))
    as [r1 [w1 l1]].
  destruct (attempts completion attempt_range qry responses w) as [r2 w2].
  simpl in H1, H2. subst. apply IH.
Qed.

Section Outage.

Hypothesis down : forall qry w, fst (completion qry w) = Raised.

Lemma attempts_down (n : nat) :
  forall (start : nat) (qry : Query) (responses : list (option Response))
         (w : World) (log : list (outcome Response)),
    start + n = 5 -> 0 < n ->
    exists w',
      attempts (logging completion) (seq (S start) n) qry responses (w, log)
      = (responses ++ [None], (w', log ++ repeat Raised n)).
Proof.
  induction n as [|n IH]; intros start qry responses w log Hs Hn; [inversion Hn|].
  simpl. unfold logging at 1. simpl.
  pose proof (down qry w) as Hd.
  destruct (completion qry w) as [o w']. simpl in Hd. subst o. simpl.
  assert (Hs' : S start + n = 5) by (rewrite <- Hs; simpl; now rewrite Nat.add_succ_r).
  destruct n as [|n].
  - assert (start = 4) by (rewrite Nat.add_0_r in Hs'; now inversion Hs').
    subst start. simpl. eauto.
  - assert (Hne : Nat.eqb start 4 = false).
    { apply Nat.eqb_neq. intros ->. simpl in Hs'. discriminate. }
    rewrite Hne.
    destruct (IH (S start) qry responses w' (log ++ [Raised]) Hs' (Nat.lt_0_succ _))
      as (w'' & Hr).
    exists w''. rewrite Hr, <- app_assoc. reflexivity.
Qed.

Lemma reviewer_loop_down (qrys : list Query) :
  forall (responses : list (option Response)) (w : World) (log : list (outcome Response)),
    exists w',
      reviewer_loop (logging completion) qrys responses (w, log)
      = (responses ++ repeat None (List.length qrys),
         (w', log ++ repeat Raised (5 * List.length qrys))).
Proof.
  induction qrys as [|qry rest IH]; intros responses w log; cbn [reviewer_loop].
  - exists w. simpl. now rewrite !app_nil_r.
  - destruct (@attempts_down 5 0 qry responses w log eq_refl (Nat.lt_0_succ _))
      as (w' & Hr).
    unfold attempt_range. rewrite Hr.
    destruct (IH (responses ++ [None]) w' (log ++ repeat Raised 5)) as (w'' & Hl).
    exists w''. rewrite Hl. rewrite <- !app_assoc. f_equal. f_equal. f_equal.
    cbn [List.length]. rewrite Nat.mul_succ_r, Nat.add_comm, repeat_app. reflexivity.
Qed.

End Outage.

Section Healthy.

Hypothesis up : forall qry w, exists res, fst (completion qry w) = Returned res.

Lemma reviewer_loop_up (qrys : list Query) :
  forall (responses : list (option Response)) (w : World) (log : list (outcome Response)),
    exists ress w',
      reviewer_loop (logging completion) qrys responses (w, log)
      = (responses ++ map Some ress, (w', log ++ map (@Returned Response) ress)) /\
      List.length ress = List.length qrys.
Proof.
  induction qrys as [|qry rest IH]; intros responses w log; cbn [reviewer_loop].
  - exists [], w. simpl. now rewrite !app_nil_r.
  - unfold attempt_range. simpl seq. cbn [attempts]. unfold logging at 1. simpl.
    destruct (up qry w) as [res Hres].
    destruct (completion qry w) as [o w']. simpl in Hres. subst o. simpl.
    destruct (IH (responses ++ [Some res]) w' (log ++ [Returned res]))
      as (ress & w'' & Hl & Hlen).
    exists (res :: ress), w''. rewrite Hl, <- !app_assoc. simpl. auto.
Qed.

End Healthy.

(** X5: when every call of the completion client raises, every paper's
    response is None and the batch makes exactly 5 calls per paper. *)
Theorem X5_reviewer_outage :
  (forall qry w, fst (completion qry w) = Raised) ->
  forall (qrys : list Query) (w : World),
    fst (run_reviewer completion qrys w) = repeat None (List.length qrys) /\
    snd (snd (run_reviewer (logging completion) qrys (w, [])))
    = repeat Raised (5 * List.length qrys).
Proof.
  intros Hdown qrys w. unfold run_reviewer.
  destruct (reviewer_loop_down Hdown qrys [] w []) as (w' & Hl).
  split.
  - rewrite <- (reviewer_loop_logging qrys [] w []), Hl. reflexivity.
  - rewrite Hl. reflexivity.
Qed.

(** X6: when every call of the completion client returns, the batch makes
    exactly one call per paper and each paper's response is the one its
    call returned, in paper order. *)
Theorem X6_reviewer_healthy :
  (forall qry w, exists res, fst (completion qry w) = Returned res) ->
  forall (qrys : list Query) (w : World),
    exists ress,
      List.length ress = List.length qrys /\
      fst (run_reviewer completion qrys w) = map Some ress /\
      snd (snd (run_reviewer (logging completion) qrys (w, [])))
      = map (@Returned Response) ress.
Proof.
  intros Hup qrys w. unfold run_reviewer.
  destruct (reviewer_loop_up Hup qrys [] w []) as (ress & w' & Hl & Hlen).
  exists ress. split; [exact Hlen|]. split.
  - rewrite <- (reviewer_loop_logging qrys [] w []), Hl. reflexivity.
  - rewrite Hl. reflexivity.
Qed.

End ClientMore.

(* ------------------------------------------------------------------ *)
(** ** Reviewer stage *)

Section ReviewerStage.

Import Normalizer Client Parser Pipeline Stages.

Variables World Response : Type.
Variable llm_reviewer_template : string.
Variable clean_records : pyval -> string.
Variable completion : pyval -> World -> outcome Response * World.
Variable interpret : Response -> option structured.

Lemma flat_map_singletons (A B C : Type) (f : B -> list C) (g : A -> B) (h : A -> C)
    (l : list A) :
  (forall x, In x l -> f (g x) = [h x]) -> flat_map f (map g l) = map h l.
Proof.
  induction l as [|x l IH]; simpl; intros H; auto.
  rewrite (H x (or_introl eq_refl)). simpl. f_equal. apply IH. auto.
Qed.

Lemma combine_map_both (A B C D : Type) (f : A -> C) (g : B -> D)
    (xs : list A) (ys : list B) :
  combine (map f xs) (map g ys) = map (fun xy => (f (fst xy), g (snd xy))) (combine xs ys).
Proof.
  revert ys. induction xs as [|x xs IH]; intros [|y ys]; simpl; auto. now rewrite IH.
Qed.

Lemma reviewer_queries_total (flat : frame) :
  Forall (fun r => col "paper_content" r <> None) flat ->
  exists qrys,
    traverse (reviewer_query llm_reviewer_template clean_records) flat = Some qrys.
Proof.
  induction 1 as [|r flat Hr _ [qrys IH]]; simpl; [eauto|].
  unfold reviewer_query at 1. destruct (col "paper_content" r); [|congruence].
  simpl. rewrite IH. simpl. eauto.
Qed.

(** X7: on a table with one row per identifier in which every row has a
    paper_content, the reviewer stage returns (the table constructor
    never sees columns of different lengths): one row per paper, in table
    order, made of the three cells of the paper's own parsed response
    followed by the paper's annotation cells. *)
Theorem X7_reviewer_stage_rows (flat : frame) (w : World) :
  NoDup (map doi flat) ->
  Forall (fun r => col "paper_content" r <> None) flat ->
  exists qrys responses,
    traverse (reviewer_query llm_reviewer_template clean_records) flat = Some qrys /\
    responses = fst (run_reviewer completion qrys w) /\
    List.length responses = List.length flat /\
    reviewer_stage llm_reviewer_template clean_records completion interpret flat w
    = Some (map (fun fr_raw =>
                   reviewed_row (fst fr_raw)
                     (extract_response_dict interpret (snd fr_raw)))
                (combine flat responses)).
Proof.
  intros Hnd Hc. destruct (reviewer_queries_total Hc) as [qrys Hq].
  exists qrys, (fst (run_reviewer completion qrys w)).
  assert (Hlen : List.length (fst (run_reviewer completion qrys w)) = List.length flat).
  { unfold run_reviewer.
    destruct (reviewer_loop_slots completion qrys [] w) as (slots & w' & Hl & Hs).
    rewrite Hl. simpl. rewrite Hs. now apply traverse_length in Hq. }
  repeat split; auto.
  unfold reviewer_stage. rewrite Hq. simpl.
  set (responses := fst (run_reviewer completion qrys w)) in *.
  unfold reviewer_table. rewrite !length_map, Hlen, Nat.eqb_refl. simpl. f_equal.
  unfold merge_inner. rewrite combine_map_both.
  rewrite map_map.
  apply flat_map_singletons. intros [fr raw] Hin. simpl.
  apply in_combine_l in Hin.
  change (filter (fun r : row => (doi r =? doi fr)%string) flat) with (group (doi fr) flat).
  rewrite (group_alone _ _ Hnd Hin). reflexivity.
Qed.

End ReviewerStage.

(* ------------------------------------------------------------------ *)
(** ** Judge stage on any table *)

Section JudgeMore.

Import Normalizer Parser Judge Stages.

Variable Response : Type.
Variable llm_judge_template : string.
Variable json_dumps : pyval -> string.
Variable batch_completion : list pyval -> list (option Response).
Variable extract_response_dict : option Response -> dict.

Lemma judge_record_shape (id : string) (res : dict) (r : row) :
  judge_record id res = Some r ->
  doi r = id /\
  exists x ds, cells r = [("matches", x); ("match_descriptions", PyList ds)].
Proof.
  unfold judge_record. intros H. inv_bind H. inversion H; subst. simpl. eauto.
Qed.

Lemma judge_records_shape (resp_df : frame) (parsed_results : list dict)
    (records : list row) :
  judge_records resp_df parsed_results = Some records ->
  Forall (fun rec => exists x ds,
            cells rec = [("matches", x); ("match_descriptions", PyList ds)]) records.
Proof.
  unfold judge_records. intros H. apply traverse_Forall2 in H.
  induction H as [|dr rec l recs Hrec _ IH]; constructor; auto.
  apply judge_record_shape in Hrec as [_ Hc]. exact Hc.
Qed.

Lemma In_firstn (A : Type) (x : A) (n : nat) (l : list A) :
  In x (firstn n l) -> In x l.
Proof.
  revert l. induction n as [|n IH]; intros l; simpl; [tauto|].
  destruct l as [|y l]; simpl; [tauto|]. intros [H|H]; auto.
Qed.

Lemma NoDup_firstn (A : Type) (n : nat) (l : list A) : NoDup l -> NoDup (firstn n l).
Proof.
  revert l. induction n as [|n IH]; intros [|x l] H; simpl; try constructor.
  - inversion H; subst. intros Hin. apply In_firstn in Hin. contradiction.
  - inversion H; subst. auto.
Qed.

Lemma group_absent (k : string) (rs : list row) :
  ~ In k (map doi rs) -> group k rs = [].
Proof.
  unfold group. induction rs as [|r rs IH]; simpl; intros H; auto.
  destruct (String.eqb_spec (doi r) k) as [E|E]; [tauto|]. apply IH. tauto.
Qed.

Lemma group_at_most_one (k : string) (rs : list row) :
  NoDup (map doi rs) ->
  group k rs = [] \/ exists rec, group k rs = [rec] /\ In rec rs.
Proof.
  intros Hnd. destruct (in_dec string_dec k (map doi rs)) as [Hin|Hout].
  - right. apply in_map_iff in Hin as (rec & <- & Hin). exists rec.
    split; auto. now apply group_alone.
  - left. now apply group_absent.
Qed.

(** X8: the judge records carry the identifiers of the first rows of the
    whole table, one per judge answer: there are min(rows, answers)
    records, and answers beyond the number of rows are dropped. *)
Theorem X8_judge_records_positions (resp_df : frame) (parsed_results : list dict)
    (records : list row) :
  judge_records resp_df parsed_results = Some records ->
  map doi records = firstn (List.length parsed_results) (map doi resp_df) /\
  List.length records = Nat.min (List.length resp_df) (List.length parsed_results).
Proof.
  intros H. split; [now apply judge_records_ids|].
  unfold judge_records in H. apply traverse_length in H.
  rewrite H, length_combine, length_map. reflexivity.
Qed.

(** X9: when no row of the table is an error case (and the batched call
    answers no prompt with no response), the judge stage raises: there is
    no record, and the merge has no identifier column to join on. *)
Theorem X9_judge_stage_without_error_case (resp_df : frame) :
  Forall (fun r => is_error_case r = Some false) resp_df ->
  batch_completion [] = [] ->
  judge_stage llm_judge_template json_dumps batch_completion extract_response_dict resp_df
  = None.
Proof.
  intros Hall Hb. unfold judge_stage, judge_queries.
  assert (Hm : exists mask, traverse is_error_case resp_df = Some mask /\
                            select resp_df mask = []).
  { induction Hall as [|r df Hr _ (mask & Hmask & Hsel)]; simpl.
    - exists []. auto.
    - rewrite Hr, Hmask. simpl. exists (false :: mask). split; auto. }
  destruct Hm as (mask & -> & Hsel). simpl. rewrite Hsel. simpl. rewrite Hb. simpl.
  unfold judge_records. rewrite combine_nil. reflexivity.
Qed.

(** X10: when the judge stage returns on a table with one row per
    identifier, the merged table has the same papers in the same order,
    each row keeping its cells and gaining exactly the two cells matches
    and match_descriptions: both null, or a stored value and a list of
    descriptions. *)
Theorem X10_judge_stage_rows (resp_df merged : frame) :
  NoDup (map doi resp_df) ->
  judge_stage llm_judge_template json_dumps batch_completion extract_response_dict resp_df
  = Some merged ->
  map doi merged = map doi resp_df /\
  Forall2 (fun r m =>
             m = unjudged_row r \/
             exists x ds,
               m = mkRow (doi r)
                     (cells r ++ [("matches", x); ("match_descriptions", PyList ds)]))
          resp_df merged.
Proof.
  intros Hnd H. unfold judge_stage in H.
  apply bind_Some in H as (qrys & _ & H). apply bind_Some in H as (records & Hrec & H).
  pose proof (judge_records_ids _ _ Hrec) as Hids.
  pose proof (judge_records_shape _ _ Hrec) as Hshape.
  assert (Hndr : NoDup (map doi records)) by (rewrite Hids; now apply NoDup_firstn).
  unfold merge_left in H. destruct records as [|rec0 recs0] eqn:Erec; [discriminate|].
  rewrite <- Erec in *. clear Erec rec0 recs0 Hids Hrec. inversion H; subst; clear H.
  clear Hnd. induction resp_df as [|l df IH]; simpl; [split; constructor|].
  destruct IH as [IH1 IH2].
  change (filter (fun r : row => (doi r =? doi l)%string) records)
    with (group (doi l) records).
  destruct (@group_at_most_one (doi l) records Hndr) as [E|(rec & E & Hin)]; rewrite E; simpl.
  - split; [now rewrite IH1|]. constructor; auto.
  - split; [now rewrite IH1|]. constructor; auto. right.
    rewrite Forall_forall in Hshape. destruct (Hshape rec Hin) as (x & ds & Hc).
    exists x, ds. now rewrite Hc.
Qed.

End JudgeMore.

Section JudgePrefix.

Import Normalizer Parser Judge Stages.

Variable Response : Type.
Variable llm_judge_template : string.
Variable json_dumps : pyval -> string.
Variable batch_completion : list pyval -> list (option Response).
Variable extract_response_dict : option Response -> dict.

Lemma error_cases_prefix (cases others : frame) :
  Forall (fun r => is_error_case r = Some true) cases ->
  Forall (fun r => is_error_case r = Some false) others ->
  exists mask, traverse is_error_case (cases ++ others) = Some mask /\
               select (cases ++ others) mask = cases.
Proof.
  intros Hc Ho. induction Hc as [|r cases Hr _ (mask & Hmask & Hsel)]; simpl.
  - induction Ho as [|r others Hr _ (mask & Hmask & Hsel)]; simpl.
    + exists []. auto.
    + rewrite Hr. simpl in Hmask. rewrite Hmask. simpl. exists (false :: mask). auto.
  - rewrite Hr, Hmask. simpl. exists (true :: mask). split; auto.
    unfold select in *. simpl. now rewrite Hsel.
Qed.

Lemma combine_app_left (A B : Type) (xs zs : list A) (ys : list B) :
  List.length ys = List.length xs -> combine (xs ++ zs) ys = combine xs ys.
Proof.
  revert ys. induction xs as [|x xs IH]; intros [|y ys] H; simpl in *;
    try discriminate; auto.
  - now destruct zs.
  - f_equal. apply IH. congruence.
Qed.

(** The left merge, row by row, when every case has its own record. *)
Lemma merge_cases (all_records : list row) (cases recs : list row) :
  NoDup (map doi all_records) ->
  Forall2 (fun l rec => doi rec = doi l /\ In rec all_records) cases recs ->
  flat_map
    (fun l =>
       match filter (fun r => String.eqb (doi r) (doi l)) all_records with
       | [] => [mkRow (doi l) (cells l ++ null_match_cells)]
       | rs => map (fun r => mkRow (doi l) (cells l ++ cells r)) rs
       end) cases
  = map (fun lr => judged_row (fst lr) (snd lr)) (combine cases recs).
Proof.
  intros Hnd H. induction H as [|l rec cases recs [Hid Hin] _ IH];
    cbn [flat_map combine]; auto.
  rewrite map_cons, IH.
  change (filter (fun r : row => (doi r =? doi l)%string) all_records)
    with (group (doi l) all_records).
  rewrite <- Hid, (group_alone _ _ Hnd Hin). cbn [fst snd].
  unfold judged_row at 1. rewrite Hid. reflexivity.
Qed.

Lemma merge_others (all_records : list row) (others : list row) :
  (forall l, In l others -> ~ In (doi l) (map doi all_records)) ->
  flat_map
    (fun l =>
       match filter (fun r => String.eqb (doi r) (doi l)) all_records with
       | [] => [mkRow (doi l) (cells l ++ null_match_cells)]
       | rs => map (fun r => mkRow (doi l) (cells l ++ cells r)) rs
       end) others
  = map unjudged_row others.
Proof.
  induction others as [|l others IH]; cbn [flat_map]; intros H; auto.
  rewrite map_cons, IH by (intros l' Hl'; apply H; now right).
  change (filter (fun r : row => (doi r =? doi l)%string) all_records)
    with (group (doi l) all_records).
  rewrite (@group_absent (doi l) all_records (H l (or_introl eq_refl))). reflexivity.
Qed.

Lemma NoDup_app_disjoint (A : Type) (xs ys : list A) (x : A) :
  NoDup (xs ++ ys) -> In x xs -> ~ In x ys.
Proof.
  induction xs as [|a xs IH]; simpl; intros Hnd Hin; [tauto|].
  inversion Hnd; subst. destruct Hin as [->|Hin]; auto.
  intros Hy. apply H1. apply in_or_app. now right.
Qed.

Lemma records_of_cases (cases : list row) :
  forall (parsed : list dict) (recs : list row),
    traverse (fun ra => judge_record (doi (fst ra)) (snd ra)) (combine cases parsed)
    = Some recs ->
    List.length parsed = List.length cases ->
    Forall2 (fun l rec => doi rec = doi l) cases recs /\
    traverse (fun dr => judge_record (fst dr) (snd dr)) (combine (map doi cases) parsed)
    = Some recs.
Proof.
  induction cases as [|c cs IH]; intros [|p ps] recs H Hl; simpl in *;
    try discriminate.
  - inversion H. split; [constructor | reflexivity].
  - apply bind_Some in H as (rec & Hrec & H). apply bind_Some in H as (rs & Hrs & H).
    inversion H; subst. destruct (IH ps rs Hrs) as [IH1 IH2]; [congruence|].
    rewrite Hrec, IH2. simpl. split; auto. constructor; auto.
    now apply judge_record_shape in Hrec as [Hd _].
Qed.

Lemma records_within (cases recs all_records : list row) :
  Forall2 (fun l rec => doi rec = doi l) cases recs ->
  incl recs all_records ->
  Forall2 (fun l rec => doi rec = doi l /\ In rec all_records) cases recs.
Proof.
  induction 1 as [|l rec cs rs Hd _ IH]; intros Hsub; constructor.
  - split; auto. apply Hsub. now left.
  - apply IH. intros r Hr. apply Hsub. now right.
Qed.

(** X11: when all error cases precede all other rows, identifiers are
    pairwise different and the batched call returns one response per
    prompt, the judge stage attaches to every error case the record made
    from the answer to its own prompt and gives every other row null
    match fields. *)
Theorem X11_judge_stage_error_cases_first (cases others : frame)
    (qrys : list pyval) (recs : list row) :
  NoDup (map doi (cases ++ others)) ->
  cases <> [] ->
  Forall (fun r => is_error_case r = Some true) cases ->
  Forall (fun r => is_error_case r = Some false) others ->
  traverse (judge_query llm_judge_template json_dumps) cases = Some qrys ->
  List.length (batch_completion qrys) = List.length qrys ->
  traverse (fun ra => judge_record (doi (fst ra)) (snd ra))
           (combine cases (map extract_response_dict (batch_completion qrys)))
  = Some recs ->
  judge_stage llm_judge_template json_dumps batch_completion extract_response_dict
    (cases ++ others)
  = Some (map (fun lr => judged_row (fst lr) (snd lr)) (combine cases recs)
          ++ map unjudged_row others).
Proof.
  intros Hnd Hne Hc Ho Hq Hlen Hrecs.
  unfold judge_stage, judge_queries.
  destruct (error_cases_prefix Hc Ho) as (mask & Hmask & Hsel).
  rewrite Hmask. cbn [bind]. rewrite Hsel, Hq. cbn [bind].
  set (parsed := map extract_response_dict (batch_completion qrys)) in *.
  assert (Hpl : List.length parsed = List.length cases).
  { unfold parsed. rewrite length_map, Hlen. now apply traverse_length in Hq. }
  unfold judge_records. rewrite map_app, (combine_app_left _ _ _).
  2:{ now rewrite length_map. }
  destruct (records_of_cases _ _ Hrecs Hpl) as [Hrel Hrecs'].
  fold parsed. rewrite Hrecs'. cbn [bind].
  assert (Hids : map doi recs = map doi cases).
  { clear - Hrel. induction Hrel; simpl; congruence. }
  unfold merge_left. destruct recs as [|rec0 recs0] eqn:Erec.
  { inversion Hrel; subst. congruence. }
  rewrite <- Erec in *. f_equal. rewrite flat_map_app. f_equal.
  - apply merge_cases.
    + rewrite Hids. rewrite map_app in Hnd. now apply NoDup_app_remove_r in Hnd.
    + apply records_within; [exact Hrel | apply incl_refl].
  - apply merge_others. intros l Hl Hin. rewrite Hids in Hin.
    rewrite map_app in Hnd.
    apply (@NoDup_app_disjoint _ _ _ _ Hnd Hin). now apply in_map.
Qed.

End JudgePrefix.

Section PromptOfNormalized.

Import Normalizer Parser Judge Stages.

Lemma combine_map_same (A B C : Type) (f : A -> B) (g : A -> C) (l : list A) :
  combine (map f l) (map g l) = map (fun x => (f x, g x)) l.
Proof. induction l; simpl; congruence. Qed.

(** X4: for a paper of a normalized table that has the columns
    error_location and error_annotation, the judge payload lists one
    annotation per raw row of the paper, in source row order, pairing the
    location and the description of the same raw row, and carries the
    reviewer's errors value as the predictions. *)
Theorem X4_judge_prompt_of_normalized_paper (columns : list string) (df : frame)
    (fr : row) (d : dict) :
  In "error_location" columns -> In "error_annotation" columns ->
  In fr (normalize columns df) ->
  let raw_rows := filter (fun raw => String.eqb (doi raw) (doi fr)) df in
  raw_rows <> [] /\
  judge_payload (reviewed_row fr d)
  = Some (PyDict [("annotations", PyList (map annotation_of raw_rows));
                  ("predictions", get d "errors" (PyList []))]).
Proof.
  intros Hloc Hann Hfr. destruct (@normalize_row columns df fr Hfr) as [Er Hk].
  pose proof (@group_nonempty _ _ Hk) as Hne.
  assert (Hl : lookup "error_location" (cells fr)
               = Some (PyList (column_values "error_location" (group (doi fr) df)))).
  { rewrite Er at 1. rewrite (@lookup_agg_group columns _ _ _ Hloc) by discriminate.
    reflexivity. }
  assert (Ha : lookup "error_annotation" (cells fr)
               = Some (PyList (column_values "error_annotation" (group (doi fr) df)))).
  { rewrite Er at 1. rewrite (@lookup_agg_group columns _ _ _ Hann) by discriminate.
    reflexivity. }
  cbv zeta. fold (group (doi fr) df). split; [exact Hne|].
  unfold judge_payload, reviewed_row, col. cbn [cells reviewer_row app lookup].
  change (String.eqb "error_location" "parsed") with false.
  change (String.eqb "error_location" "is_error") with false.
  change (String.eqb "error_location" "errors") with false.
  change (String.eqb "error_annotation" "parsed") with false.
  change (String.eqb "error_annotation" "is_error") with false.
  change (String.eqb "error_annotation" "errors") with false.
  change (String.eqb "errors" "parsed") with false.
  change (String.eqb "errors" "is_error") with false.
  change (String.eqb "errors" "errors") with true.
  cbv iota. rewrite Hl, Ha. cbn [bind py_iter].
  unfold column_values. rewrite combine_map_same, map_map. reflexivity.
Qed.

End PromptOfNormalized.

(* ------------------------------------------------------------------ *)
(** ** Metrics aggregator: order, bounds, failures *)

Section MetricsMore.

Import Metrics Stages.
Local Open Scope Z_scope.

Variable py_eval : string -> option pyval.

Lemma traverse_permutation (A B : Type) (f : A -> option B) (xs xs' : list A) :
  Permutation xs xs' ->
  forall ys, traverse f xs = Some ys ->
  exists ys', traverse f xs' = Some ys' /\
              Permutation (combine xs ys) (combine xs' ys').
Proof.
  induction 1 as [|x l l' _ IH|x y l|l l' l'' _ IH1 _ IH2]; intros ys H.
  - exists ys. split; auto.
  - simpl in H. apply bind_Some in H as (b & Hb & H).
    apply bind_Some in H as (bs & Hbs & H). inversion H; subst.
    destruct (IH bs Hbs) as (bs' & Hbs' & Hp).
    exists (b :: bs'). simpl. rewrite Hb, Hbs'. simpl. split; auto.
  - simpl in H. apply bind_Some in H as (b & Hb & H).
    apply bind_Some in H as (bs & Hbs & H). inversion H; subst. clear H.
    apply bind_Some in Hbs as (c & Hc & H).
    apply bind_Some in H as (cs & Hcs & H). inversion H; subst.
    exists (c :: b :: cs). simpl. rewrite Hc, Hb, Hcs. simpl. split; auto.
    apply perm_swap.
  - destruct (IH1 ys H) as (ys' & H' & Hp1).
    destruct (IH2 ys' H') as (ys'' & H'' & Hp2).
    exists ys''. split; auto. eapply perm_trans; eauto.
Qed.

Lemma Zsum_permutation (xs xs' : list Z) : Permutation xs xs' -> Zsum xs = Zsum xs'.
Proof. induction 1; simpl; lia. Qed.

Lemma filter_length_permutation (A : Type) (p : A -> bool) (xs xs' : list A) :
  Permutation xs xs' -> List.length (filter p xs) = List.length (filter p xs').
Proof.
  induction 1 as [|x l l' _ IH|x y l|l l' l'' _ IH1 _ IH2]; simpl; auto.
  - destruct (p x); simpl; congruence.
  - destruct (p x), (p y); reflexivity.
  - congruence.
Qed.

(** X12: reordering the rows of the table changes none of N, micro
    precision, micro recall and PPR, each of which is one quotient of
    integer sums or counts over the rows, and only reorders the per-paper
    entries.  Macro precision and macro recall, which sum per-paper
    quotients in row order, are not part of the statement. *)
Theorem X12_metrics_row_order (df df' : frame) (rep : report) :
  Permutation df df' ->
  compute_all_metrics py_eval df = Some rep ->
  exists rep',
    compute_all_metrics py_eval df' = Some rep' /\
    N rep' = N rep /\
    precision_micro rep' = precision_micro rep /\
    recall_micro rep' = recall_micro rep /\
    PPR rep' = PPR rep /\
    Permutation (per_paper rep) (per_paper rep').
Proof.
  intros Hp H. unfold compute_all_metrics in *.
  apply bind_Some in H as (cs & Hcs & H). inversion H; subst; clear H.
  destruct (@traverse_permutation _ _ (paper_counts py_eval) _ _ Hp _ Hcs) as (cs' & Hcs' & Hcomb).
  rewrite Hcs'. simpl. eexists. split; [reflexivity|]. simpl.
  pose proof (traverse_length _ _ Hcs) as Hl. pose proof (traverse_length _ _ Hcs') as Hl'.
  assert (Hpc : Permutation cs cs').
  { rewrite <- (map_snd_combine df cs), <- (map_snd_combine df' cs') by auto.
    now apply Permutation_map. }
  assert (Hlen : List.length cs' = List.length cs)
    by (symmetry; now apply Permutation_length).
  assert (HT : TP_total cs' = TP_total cs)
    by (symmetry; apply Zsum_permutation; now apply Permutation_map).
  assert (HF : FP_total cs' = FP_total cs)
    by (symmetry; apply Zsum_permutation; now apply Permutation_map).
  assert (HN : FN_total cs' = FN_total cs)
    by (symmetry; apply Zsum_permutation; now apply Permutation_map).
  rewrite Hlen, HT, HF, HN. repeat split.
  - unfold ppr_of, perfect_count.
    rewrite <- (filter_length_permutation perfect Hpc), Hlen.
    destruct cs, cs'; try discriminate; reflexivity.
  - assert (E : forall (d : frame) (c : list counts),
               combine (map doi d) c = map (fun p => (doi (fst p), snd p)) (combine d c)).
    { induction d as [|a d IHd]; intros [|b c]; simpl; auto. now rewrite IHd. }
    rewrite !E. now apply Permutation_map.
Qed.

Lemma Qsum_bounds (xs : list Q) :
  Forall (fun x => (0 <= x)%Q) xs -> (0 <= Qsum xs)%Q.
Proof.
  induction 1 as [|x xs Hx _ IH]; simpl; [apply Qle_refl|].
  change 0%Q with (0 + 0)%Q. now apply Qplus_le_compat.
Qed.

Lemma Qsum_at_most_length (xs : list Q) :
  Forall (fun x => (x <= 1)%Q) xs -> (Qsum xs <= inject_Z (Z.of_nat (List.length xs)))%Q.
Proof.
  induction 1 as [|x xs Hx _ IH]; simpl Qsum; [apply Qle_refl|].
  cbn [List.length]. rewrite Nat2Z.inj_succ. unfold Z.succ. rewrite inject_Z_plus.
  rewrite Qplus_comm. now apply Qplus_le_compat.
Qed.

Lemma mean_value (xs : list Q) (p : Q) :
  mean xs = Some p ->
  (0 < inject_Z (Z.of_nat (List.length xs)))%Q /\
  p = (Qsum xs / inject_Z (Z.of_nat (List.length xs)))%Q.
Proof.
  destruct xs as [|x xs]; [discriminate|]. intros H. split.
  - unfold Qlt. simpl. lia.
  - unfold mean in H. now injection H as <-.
Qed.

Lemma mean_bounds (xs : list Q) (p : Q) :
  mean xs = Some p ->
  (Forall (fun x => (0 <= x)%Q) xs -> (0 <= p)%Q) /\
  (Forall (fun x => (x <= 1)%Q) xs -> (p <= 1)%Q).
Proof.
  intros H. destruct (mean_value _ H) as [Hpos ->]. split; intros Hall.
  - unfold Qdiv. apply Qmult_le_0_compat; [now apply Qsum_bounds|].
    apply Qinv_le_0_compat. now apply Qlt_le_weak.
  - apply Qle_shift_div_r; auto.
    apply Qle_trans with (inject_Z (Z.of_nat (List.length xs))).
    + now apply Qsum_at_most_length.
    + apply Qle_lteq. right. symmetry. apply Qmult_1_l.
Qed.

Lemma ppr_value (cs : list counts) (p : Q) :
  ppr_of cs = Some p ->
  0 < Z.of_nat (List.length cs) /\
  p = (inject_Z (perfect_count cs) / inject_Z (Z.of_nat (List.length cs)))%Q.
Proof.
  destruct cs as [|c cs]; [discriminate|]. intros H. split.
  - simpl. lia.
  - unfold ppr_of in H. now injection H as <-.
Qed.

(** X13: PPR, when it is a number, lies in [0,1]; macro precision and
    macro recall are never negative; macro precision is at most 1 when no
    paper has a negative FP_i, macro recall when none has a negative
    FN_i. *)
Theorem X13_metrics_bounds (df : frame) (rep : report) :
  compute_all_metrics py_eval df = Some rep ->
  (forall p, PPR rep = Some p -> (0 <= p <= 1)%Q) /\
  (forall p, precision_macro rep = Some p -> (0 <= p)%Q) /\
  (forall p, recall_macro rep = Some p -> (0 <= p)%Q) /\
  (Forall (fun dc => 0 <= FP_i (snd dc)) (per_paper rep) ->
   forall p, precision_macro rep = Some p -> (p <= 1)%Q) /\
  (Forall (fun dc => 0 <= FN_i (snd dc)) (per_paper rep) ->
   forall p, recall_macro rep = Some p -> (p <= 1)%Q).
Proof.
  intros H. apply compute_inv in H as (cs & Hcs & -> & Hsnd & Hlen & Hs). simpl.
  assert (Hcomb : forall (P : counts -> Prop),
             Forall (fun dc : string * counts => P (snd dc)) (combine (map doi df) cs) ->
             Forall P cs).
  { intros P HP. rewrite <- Hsnd. simpl. rewrite Forall_map. exact HP. }
  repeat split.
  - destruct (ppr_value _ H) as [Hpos ->].
    apply Qdiv_Z_nonneg; auto. unfold perfect_count. lia.
  - destruct (ppr_value _ H) as [Hpos ->].
    apply Qdiv_Z_le_1; auto. unfold perfect_count.
    apply Nat2Z.inj_le, filter_length_le.
  - intros p Hp. apply (mean_bounds _ Hp). rewrite Forall_map.
    rewrite Forall_forall in *. intros c Hc. destruct (Hs c Hc) as (H1 & _).
    now apply ratio_nonneg.
  - intros p Hp. apply (mean_bounds _ Hp). rewrite Forall_map.
    rewrite Forall_forall in *. intros c Hc. destruct (Hs c Hc) as (H1 & _).
    now apply ratio_nonneg.
  - intros Hfp p Hp. apply (mean_bounds _ Hp). rewrite Forall_map.
    apply (Hcomb (fun c => 0 <= FP_i c)) in Hfp. rewrite Forall_forall in *. intros c Hc.
    apply ratio_le_1. left. specialize (Hfp c Hc). simpl in Hfp. lia.
  - intros Hfn p Hp. apply (mean_bounds _ Hp). rewrite Forall_map.
    apply (Hcomb (fun c => 0 <= FN_i c)) in Hfn. rewrite Forall_forall in *. intros c Hc.
    apply ratio_le_1. left. specialize (Hfn c Hc). simpl in Hfn. lia.
Qed.

End MetricsMore.

Section MetricsFailures.

Import Metrics Stages.
Local Open Scope Z_scope.

Variable py_eval : string -> option pyval.


(** X16: one row is enough to make the whole aggregation raise: a row that
    lacks one of the four columns, whose matches text does not evaluate,
    or whose error_annotation has no length. *)
Theorem X16_metrics_one_bad_row (df : frame) (r : row) :
  In r df ->
  (col "matches" r = None \/ col "match_descriptions" r = None \/
   col "errors" r = None \/ col "error_annotation" r = None \/
   (exists s, col "matches" r = Some (PyStr s) /\ py_eval s = None) \/
   (exists a, col "error_annotation" r = Some a /\ py_len a = None)) ->
  compute_all_metrics py_eval df = None.
Proof.
  intros Hin Hbad.
  assert (Hr : readable py_eval r = false).
  { unfold readable, sized.
    destruct Hbad as [H|[H|[H|[H|[(s & H & He)|(a & H & Ha)]]]]]; rewrite H.
    - reflexivity.
    - now destruct (col "matches" r).
    - now destruct (col "matches" r), (col "match_descriptions" r).
    - now destruct (col "matches" r), (col "match_descriptions" r), (col "errors" r).
    - simpl. rewrite He.
      destruct (col "match_descriptions" r), (col "errors" r),
        (col "error_annotation" r); auto. apply andb_false_r.
    - rewrite Ha.
      now destruct (col "matches" r), (col "match_descriptions" r), (col "errors" r). }
  destruct (compute_all_metrics py_eval df) as [rep|] eqn:E; [|reflexivity].
  assert (Hall : forallb (readable py_eval) df = true)
    by (apply compute_all_metrics_returns; eauto).
  rewrite forallb_forall in Hall. rewrite (Hall r Hin) in Hr. discriminate.
Qed.

(** X14: on a table where no row has a string in matches nor any match
    description, every paper has TP_i = 0, FN_i = k_i and FP_i >= 0; micro
    and macro precision and recall are 0, and PPR is the share of papers
    without any annotation. *)
Theorem X14_metrics_without_matches (df : frame) (rep : report) :
  compute_all_metrics py_eval df = Some rep ->
  Forall (fun r => exists x y,
            col "matches" r = Some x /\ is_str x = false /\
            col "match_descriptions" r = Some y /\ py_len (norm_list y) = Some 0) df ->
  Forall (fun dc => TP_i (snd dc) = 0 /\ FN_i (snd dc) = k_i (snd dc) /\
                    0 <= FP_i (snd dc)) (per_paper rep) /\
  (precision_micro rep == 0)%Q /\ (recall_micro rep == 0)%Q /\
  (forall p, precision_macro rep = Some p -> (p == 0)%Q) /\
  (forall p, recall_macro rep = Some p -> (p == 0)%Q) /\
  (forall p, PPR rep = Some p ->
     p = (inject_Z (Z.of_nat (List.length
                      (filter (fun dc => k_i (snd dc) =? 0) (per_paper rep))))
          / inject_Z (N rep))%Q).
Proof.
  intros H Hall. apply compute_inv in H as (cs & Hcs & -> & _ & Hlen & _). simpl.
  assert (Hids : List.length (map doi df) = List.length cs)
    by (rewrite length_map; auto).
  assert (Hz : Forall (fun c => TP_i c = 0 /\ FN_i c = k_i c /\ 0 <= FP_i c) cs).
  { apply traverse_Forall2 in Hcs. clear Hlen Hids.
    induction Hcs as [|r c df cs Hc _ IH]; [constructor|].
    inversion Hall as [|? ? (x & y & Hx & Hstr & Hy & Hy0) Hall']; subst.
    constructor; [|now apply IH].
    apply paper_counts_inv in Hc
      as (x_m & m & x_md & x_e & ann & lm & lmd & le
          & H1 & H2 & H3 & H4 & H5 & H6 & H7 & H8 & H9 & Htp & Hfp & Hfn).
    rewrite Hx in H1. rewrite Hy in H3. inversion H1; inversion H3; subst.
    assert (m = PyList []) by (destruct x_m; simpl in *; congruence). subst m.
    simpl in H6. rewrite Hy0 in H7. inversion H6; inversion H7; subst.
    apply py_len_nonneg in H8. simpl in Htp. lia. }
  assert (HT : TP_total cs = 0).
  { unfold TP_total. clear - Hz. induction Hz as [|c cs (H & _) _ IH]; simpl; lia. }
  assert (Hr0 : forall d, (ratio 0 d == 0)%Q).
  { intros d. unfold ratio. destruct (0 <? d); [|reflexivity].
    unfold Qdiv. now rewrite Qmult_0_l. }
  assert (Hsum0 : forall xs, Forall (fun x => (x == 0)%Q) xs -> (Qsum xs == 0)%Q).
  { induction 1 as [|x xs Hx _ IH]; simpl; [reflexivity|]. now rewrite Hx, IH. }
  assert (Hmean0 : forall xs p, Forall (fun x => (x == 0)%Q) xs -> mean xs = Some p ->
                                (p == 0)%Q).
  { intros xs p Hxs Hp. destruct (mean_value _ Hp) as [_ ->].
    unfold Qdiv. now rewrite (Hsum0 _ Hxs), Qmult_0_l. }
  rewrite HT. repeat split.
  - rewrite Forall_forall in *. intros [id c] Hdc. apply in_combine_r in Hdc. simpl. auto.
  - apply Hr0.
  - apply Hr0.
  - intros p Hp. refine (Hmean0 _ _ _ Hp). rewrite Forall_map.
    rewrite Forall_forall in *. intros c Hc. destruct (Hz c Hc) as (Htp & _).
    unfold per_prec. rewrite Htp. apply Hr0.
  - intros p Hp. refine (Hmean0 _ _ _ Hp). rewrite Forall_map.
    rewrite Forall_forall in *. intros c Hc. destruct (Hz c Hc) as (Htp & _).
    unfold per_rec. rewrite Htp. apply Hr0.
  - intros p Hp. destruct (ppr_value _ Hp) as [_ ->]. unfold perfect_count.
    rewrite (filter_combine_snd (fun c => k_i c =? 0) _ _ Hids).
    do 4 f_equal. apply filter_ext_in. intros c Hc.
    rewrite Forall_forall in Hz. destruct (Hz c Hc) as (Htp & _).
    unfold perfect. rewrite Htp. apply Z.eqb_sym.
Qed.

End MetricsFailures.


(* ------------------------------------------------------------------ *)
(** ** The further properties at concrete inputs *)

Section FurtherWitnesses.

Import Metrics Normalizer Client Parser Judge Pipeline Stages Files.
Import Examples MoreExamples.

Lemma paper_B_normalized :
  In (mkRow "arXiv:2401.06455"
        [("paper_content", PyStr "text B");
         ("paper_category", strs ["math"; "math"]);
         ("error_location", strs ["Lemma 2"; "Theorem 5"]);
         ("error_annotation", strs ["sign error"; "missing hypothesis"])])
     (normalize dataset_columns raw_df).
Proof. right. left. reflexivity. Defined.

Lemma X2_normalize_list_cells_witness :
  is_list_col "error_annotation" = true /\
  col "error_annotation"
      (mkRow "arXiv:2401.06455"
         [("paper_content", PyStr "text B");
          ("paper_category", strs ["math"; "math"]);
          ("error_location", strs ["Lemma 2"; "Theorem 5"]);
          ("error_annotation", strs ["sign error"; "missing hypothesis"])])
  = Some (strs ["sign error"; "missing hypothesis"]).
Proof.
  split; [reflexivity|].
  destruct (@X2_normalize_list_cells dataset_columns raw_df _ "error_annotation"
              paper_B_normalized) as (_ & Hcell & _).
  - simpl. tauto.
  - reflexivity.
  - exact Hcell.
Defined.

Lemma X3_normalize_first_cells_witness :
  is_list_col "paper_content" = false /\
  col "paper_content"
      (mkRow "arXiv:2401.06455"
         [("paper_content", PyStr "text B");
          ("paper_category", strs ["math"; "math"]);
          ("error_location", strs ["Lemma 2"; "Theorem 5"]);
          ("error_annotation", strs ["sign error"; "missing hypothesis"])])
  = Some (PyStr "text B").
Proof.
  split; [reflexivity|].
  destruct (@X3_normalize_first_cells dataset_columns raw_df _ "paper_content"
              paper_B_normalized) as (Hcell & _).
  - simpl. tauto.
  - reflexivity.
  - discriminate.
  - exact Hcell.
Defined.

Lemma X4_judge_prompt_of_normalized_paper_witness :
  In "error_location" dataset_columns /\ In "error_annotation" dataset_columns /\
  judge_payload
    (reviewed_row
       (mkRow "arXiv:2401.06455"
          [("paper_content", PyStr "text B");
           ("paper_category", strs ["math"; "math"]);
           ("error_location", strs ["Lemma 2"; "Theorem 5"]);
           ("error_annotation", strs ["sign error"; "missing hypothesis"])])
       [("parsed", PyBool true); ("errors", strs ["Lemma 2 has a sign error"])])
  = Some (PyDict
            [("annotations",
              PyList [PyDict [("location", PyStr "Lemma 2");
                              ("description", PyStr "sign error")];
                      PyDict [("location", PyStr "Theorem 5");
                              ("description", PyStr "missing hypothesis")]]);
             ("predictions", strs ["Lemma 2 has a sign error"])]).
Proof.
  assert (Hl : In "error_location" dataset_columns) by (simpl; tauto).
  assert (Ha : In "error_annotation" dataset_columns) by (simpl; tauto).
  split; [exact Hl|]. split; [exact Ha|].
  destruct (@X4_judge_prompt_of_normalized_paper dataset_columns raw_df _
              [("parsed", PyBool true); ("errors", strs ["Lemma 2 has a sign error"])]
              Hl Ha paper_B_normalized) as (_ & Hp).
  exact Hp.
Defined.

Lemma X5_reviewer_outage_witness :
  (forall qry w, fst (down_completion qry w) = Raised) /\
  fst (run_reviewer down_completion [PyNone; PyNone] 0) = [None; None] /\
  snd (snd (run_reviewer (logging down_completion) [PyNone; PyNone] (0, [])))
  = repeat Raised 10.
Proof.
  assert (Hd : forall qry w, fst (down_completion qry w) = Raised)
    by (intros; reflexivity).
  split; [exact Hd|].
  exact (@X5_reviewer_outage nat pyval structured down_completion Hd [PyNone; PyNone] 0).
Defined.

Lemma X6_reviewer_healthy_witness :
  (forall qry w, exists res, fst (up_completion qry w) = Returned res) /\
  exists ress,
    List.length ress = 2 /\
    fst (run_reviewer up_completion [PyNone; PyNone] 0) = map Some ress.
Proof.
  assert (Hu : forall qry w, exists res, fst (up_completion qry w) = Returned res)
    by (intros; eexists; reflexivity).
  split; [exact Hu|].
  destruct (@X6_reviewer_healthy nat pyval structured up_completion Hu [PyNone; PyNone] 0)
    as (ress & Hlen & Hfst & _).
  exists ress. split; [exact Hlen | exact Hfst].
Defined.

Lemma flat_df_has_content : Forall (fun r => col "paper_content" r <> None) flat_df.
Proof. repeat constructor; discriminate. Defined.

Lemma X7_reviewer_stage_rows_witness :
  NoDup (map doi flat_df) /\
  Forall (fun r => col "paper_content" r <> None) flat_df /\
  exists responses,
    List.length responses = List.length flat_df /\
    demo_reviewer_stage flat_df 0
    = Some (map (fun fr_raw =>
                   reviewed_row (fst fr_raw)
                     (extract_response_dict demo_interpret (snd fr_raw)))
                (combine flat_df responses)).
Proof.
  split; [exact flat_df_one_row_per_identifier|]. split; [exact flat_df_has_content|].
  destruct (@X7_reviewer_stage_rows nat structured "REVIEW" text_of demo_completion
              demo_interpret flat_df 0 flat_df_one_row_per_identifier flat_df_has_content)
    as (qrys & responses & _ & _ & Hlen & Hstage).
  exists responses. split; [exact Hlen | exact Hstage].
Defined.

Lemma X8_judge_records_positions_witness :
  judge_records demo_resp_df [[("matches", PyList [match_obj "m1"])]]
  = Some [mkRow "10.1234/abc123"
            [("matches", PyList [match_obj "m1"]);
             ("match_descriptions", strs ["m1"])]] /\
  map doi [mkRow "10.1234/abc123"
             [("matches", PyList [match_obj "m1"]);
              ("match_descriptions", strs ["m1"])]]
  = firstn 1 (map doi demo_resp_df).
Proof.
  split; [reflexivity|].
  apply (@X8_judge_records_positions demo_resp_df
           [[("matches", PyList [match_obj "m1"])]] _ eq_refl).
Defined.

Lemma unparsed_df_no_error_case :
  Forall (fun r => is_error_case r = Some false) unparsed_df.
Proof. repeat constructor. Defined.

Lemma X9_judge_stage_without_error_case_witness :
  Forall (fun r => is_error_case r = Some false) unparsed_df /\
  demo_batch [] = [] /\
  demo_judge_stage unparsed_df = None.
Proof.
  split; [exact unparsed_df_no_error_case|]. split; [reflexivity|].
  apply (@X9_judge_stage_without_error_case structured "JUDGE" render demo_batch
           (extract_response_dict demo_interpret) unparsed_df
           unparsed_df_no_error_case eq_refl).
Defined.

Lemma demo_resp_df_one_row_per_identifier : NoDup (map doi demo_resp_df).
Proof.
  simpl. constructor.
  - simpl. intros [H|[]]. discriminate H.
  - constructor; [intros [] | constructor].
Defined.

Lemma X10_judge_stage_rows_witness :
  NoDup (map doi demo_resp_df) /\
  exists merged,
    demo_judge_stage demo_resp_df = Some merged /\
    map doi merged = map doi demo_resp_df.
Proof.
  split; [exact demo_resp_df_one_row_per_identifier|].
  eexists. split; [reflexivity|].
  apply (@X10_judge_stage_rows structured "JUDGE" render demo_batch
           (extract_response_dict demo_interpret) demo_resp_df _
           demo_resp_df_one_row_per_identifier eq_refl).
Defined.

Lemma prefix_one_row_per_identifier : NoDup (map doi (prefix_cases ++ prefix_others)).
Proof.
  simpl. constructor.
  - simpl. intros [H|[]]. discriminate H.
  - constructor; [intros [] | constructor].
Defined.

Lemma X11_judge_stage_error_cases_first_witness :
  NoDup (map doi (prefix_cases ++ prefix_others)) /\
  prefix_cases <> [] /\
  Forall (fun r => is_error_case r = Some true) prefix_cases /\
  Forall (fun r => is_error_case r = Some false) prefix_others /\
  exists qrys recs,
    traverse (judge_query "JUDGE" render) prefix_cases = Some qrys /\
    List.length (demo_batch qrys) = List.length qrys /\
    traverse (fun ra => judge_record (doi (fst ra)) (snd ra))
      (combine prefix_cases
         (map (extract_response_dict demo_interpret) (demo_batch qrys))) = Some recs /\
    demo_judge_stage (prefix_cases ++ prefix_others)
    = Some (map (fun lr => judged_row (fst lr) (snd lr)) (combine prefix_cases recs)
            ++ map unjudged_row prefix_others).
Proof.
  assert (Hne : prefix_cases <> []) by discriminate.
  assert (Hc : Forall (fun r => is_error_case r = Some true) prefix_cases)
    by (repeat constructor).
  assert (Ho : Forall (fun r => is_error_case r = Some false) prefix_others)
    by (repeat constructor).
  split; [exact prefix_one_row_per_identifier|]. split; [exact Hne|].
  split; [exact Hc|]. split; [exact Ho|].
  do 2 eexists. split; [reflexivity|]. split; [reflexivity|]. split; [reflexivity|].
  apply (@X11_judge_stage_error_cases_first structured "JUDGE" render demo_batch
           (extract_response_dict demo_interpret) prefix_cases prefix_others _ _
           prefix_one_row_per_identifier Hne Hc Ho eq_refl eq_refl eq_refl).
Defined.

Lemma X12_metrics_row_order_witness :
  Permutation scenario_df (rev scenario_df) /\
  exists rep rep',
    compute_all_metrics no_eval scenario_df = Some rep /\
    compute_all_metrics no_eval (rev scenario_df) = Some rep' /\
    N rep' = N rep /\
    precision_micro rep' = precision_micro rep /\
    recall_micro rep' = recall_micro rep /\
    PPR rep' = PPR rep /\
    Permutation (per_paper rep) (per_paper rep').
Proof.
  assert (Hp : Permutation scenario_df (rev scenario_df)) by apply Permutation_rev.
  split; [exact Hp|].
  eexists.
  destruct (@X12_metrics_row_order no_eval scenario_df (rev scenario_df) _ Hp eq_refl)
    as (rep' & Hrep' & Hrest).
  exists rep'. split; [reflexivity|]. split; [exact Hrep'|]. exact Hrest.
Defined.

Lemma X13_metrics_bounds_witness :
  exists rep,
    compute_all_metrics no_eval overcount_df = Some rep /\
    (forall p, PPR rep = Some p -> (0 <= p <= 1)%Q).
Proof.
  eexists. split; [reflexivity|].
  apply (@X13_metrics_bounds no_eval overcount_df _ eq_refl).
Defined.

Lemma unmatched_df_no_match :
  Forall (fun r => exists x y,
            col "matches" r = Some x /\ is_str x = false /\
            col "match_descriptions" r = Some y /\ py_len (norm_list y) = Some 0%Z)
         unmatched_df.
Proof.
  repeat constructor; do 2 eexists; repeat split; reflexivity.
Defined.

Lemma X14_metrics_without_matches_witness :
  exists rep,
    compute_all_metrics no_eval unmatched_df = Some rep /\
    (precision_micro rep == 0)%Q /\ (recall_micro rep == 0)%Q.
Proof.
  eexists. split; [reflexivity|].
  destruct (@X14_metrics_without_matches no_eval unmatched_df _ eq_refl
              unmatched_df_no_match) as (_ & Hp & Hr & _).
  split; [exact Hp | exact Hr].
Defined.


Lemma X16_metrics_one_bad_row_witness :
  In (mkRow "P2"
        [("errors", strs ["e1"]); ("error_annotation", strs ["a1"]);
         ("matches", PyStr "[{'description': "); ("match_descriptions", PyNaN)])
     reread_df /\
  compute_all_metrics no_eval reread_df = None.
Proof.
  assert (Hin : In (mkRow "P2"
                      [("errors", strs ["e1"]); ("error_annotation", strs ["a1"]);
                       ("matches", PyStr "[{'description': ");
                       ("match_descriptions", PyNaN)]) reread_df)
    by (right; left; reflexivity).
  split; [exact Hin|].
  apply (@X16_metrics_one_bad_row no_eval reread_df _ Hin).
  right; right; right; right; left. eexists. split; reflexivity.
Defined.

End FurtherWitnesses.
